(** * Divvit backend: receipt scanning

    A shallow embedding of the three Python modules of the backend

      - [app/core/config.py]            (module [Config])
      - [app/services/gemini.py]        (module [Gemini])
      - [app/api/endpoints/receipts.py] (module [Receipts])

    together with the parts of the Python runtime they call: [str]
    methods (module [Str]) and [json.loads] (module [Json]).

    Python values are modelled as follows.  A [str] is the list of its
    code points; [bytes] is a list of bytes; a JSON document parsed by
    [json.loads] is a [pyobj]; an exception is its class and its [str()]
    text.  Code that can raise returns a [result]; code that touches the
    process (environment, upstream API, upload body) threads a [World]
    whose [trace] records every such call in order. *)

From Stdlib Require Import List NArith ZArith Bool Arith Lia String Ascii.
From Stdlib.Strings Require Import Byte.
From Stdlib Require Import DecimalString.
Import ListNotations.

Set Warnings "-register-all".

(* ================================================================== *)
(** * Python strings *)
(* ================================================================== *)

Module Str.

(** A Python [str] is a sequence of Unicode code points. *)
Definition pychar := N.
Definition pystr := list pychar.

(** Literals: [py "abc"] is the [str] with the code points of the given
    (ASCII) text; [pyq] is the same with every apostrophe read as a
    double quote, so that JSON texts can be written legibly. *)
Definition py (s : string) : pystr :=
  List.map N_of_ascii (list_ascii_of_string s).

Definition pyq (s : string) : pystr :=
  List.map (fun c => if N.eqb c 39 then 34%N else c) (py s).

Definition NL : pychar := 10%N.

Definition str_eqb (a b : pystr) : bool :=
  if list_eq_dec N.eq_dec a b then true else false.

(** [Py_UNICODE_ISSPACE]: the code points [str.strip()] removes. *)
Definition isspace (c : pychar) : bool :=
  ((9 <=? c) && (c <=? 13) || (28 <=? c) && (c <=? 32)
   || (c =? 133) || (c =? 160) || (c =? 5760)
   || (8192 <=? c) && (c <=? 8202)
   || (c =? 8232) || (c =? 8233) || (c =? 8239) || (c =? 8287)
   || (c =? 12288))%N.

Fixpoint lstrip (s : pystr) : pystr :=
  match s with
  | c :: s' => if isspace c then lstrip s' else s
  | [] => []
  end.

Definition rstrip (s : pystr) : pystr := rev (lstrip (rev s)).

(** [s.strip()] *)
Definition strip (s : pystr) : pystr := rstrip (lstrip s).

(** [s.startswith(prefix)] *)
Fixpoint startswith (s prefix : pystr) : bool :=
  match prefix, s with
  | [], _ => true
  | p :: prefix', c :: s' => N.eqb c p && startswith s' prefix'
  | _ :: _, [] => false
  end.

(** [s.split(sep)] for a one-character separator: always at least one
    piece, [n] separators give [n + 1] pieces. *)
Fixpoint split (s : pystr) (sep : pychar) : list pystr :=
  match s with
  | [] => [[]]
  | c :: s' =>
      if N.eqb c sep then [] :: split s' sep
      else match split s' sep with
           | l :: ls => (c :: l) :: ls
           | [] => [[c]]
           end
  end.

(** [sep.join(pieces)] *)
Fixpoint join (sep : pystr) (pieces : list pystr) : pystr :=
  match pieces with
  | [] => []
  | [p] => p
  | p :: ps => p ++ sep ++ join sep ps
  end.

(** [l[start:stop]] with Python's treatment of negative and
    out-of-range bounds. *)
Definition slice_index (len i : Z) : Z :=
  if (i <? 0)%Z then Z.max 0 (i + len) else Z.min i len.

Definition slice {A} (l : list A) (start stop : Z) : list A :=
  let len := Z.of_nat (List.length l) in
  let lo := slice_index len start in
  let hi := slice_index len stop in
  firstn (Z.to_nat (hi - lo)) (skipn (Z.to_nat lo) l).

(** [a or b] on strings: [a] unless it is empty. *)
Definition or_else (a b : pystr) : pystr :=
  match a with
  | [] => b
  | _ :: _ => a
  end.

(** ["%d" % n] for a non-negative [n]. *)
Definition str_of_nat (n : nat) : pystr :=
  py (NilEmpty.string_of_uint (Nat.to_uint n)).

End Str.
Import Str.

(* ================================================================== *)
(** * Python objects and exceptions *)
(* ================================================================== *)

(** The values [json.loads] builds.  A [float] is kept as the numeral
    Python converts ([float(lexeme)]); the binary rounding itself is not
    modelled.  A [dict] keeps its keys in insertion order. *)
Inductive pyobj : Type :=
| PyNone
| PyBool (b : bool)
| PyInt (z : Z)
| PyFloat (lexeme : pystr)
| PyStr (s : pystr)
| PyList (items : list pyobj)
| PyDict (entries : list (pystr * pyobj)).

(** [d[k] = v] *)
Fixpoint dict_set (d : list (pystr * pyobj)) (k : pystr) (v : pyobj)
  : list (pystr * pyobj) :=
  match d with
  | [] => [(k, v)]
  | (k', v') :: d' =>
      if str_eqb k k' then (k', v) :: d' else (k', v') :: dict_set d' k v
  end.

(** [dict(pairs)] *)
Definition dict_of_pairs (pairs : list (pystr * pyobj)) : list (pystr * pyobj) :=
  fold_left (fun d kv => dict_set d (fst kv) (snd kv)) pairs [].

(** The exception classes the handlers of this program tell apart, and
    those raised by what it calls, each standing for itself and its
    subclasses not listed here:
    [JSONDecodeError <: ValueError <: Exception],
    [RecursionError <: RuntimeError <: Exception], and [AttributeError]
    under [Exception].  What is raised outside [Exception] (interrupts,
    cancellation) passes every handler of the program and is not
    modelled. *)
Inductive exc_class : Type :=
| JSONDecodeError
| ValueError
| RecursionError
| RuntimeError
| AttributeError
| Exception.

(** [isinstance(e, json.JSONDecodeError)] and [isinstance(e, ValueError)] *)
Definition is_JSONDecodeError (c : exc_class) : bool :=
  match c with JSONDecodeError => true | _ => false end.

Definition is_ValueError (c : exc_class) : bool :=
  match c with JSONDecodeError | ValueError => true | _ => false end.

(** An exception: its class and [str(e)]. *)
Record exn : Type := mkExn { exc_cls : exc_class; exc_str : pystr }.

Inductive result (A : Type) : Type :=
| Return (a : A)
| Raise (e : exn).
Arguments Return {A} a.
Arguments Raise {A} e.

(* ================================================================== *)
(** * [json.loads] *)
(* ================================================================== *)

(** The decoder of CPython's [json] package (3.12) with its default
    settings ([strict=True], no hooks), following the scanner of the
    [_json] accelerator: [scanstring], [_match_number], [_parse_object],
    [_parse_array], [scan_once], and [JSONDecoder.decode] on top.  The
    text is consumed front to back; [pos] is the index in the whole
    document of the first character not yet consumed.

    Two limits of the interpreter show in what the decoder raises.  An
    integer of more than [int_max_str_digits] digits is refused by
    [int] with a [ValueError].  Every object and array is entered
    through [Py_EnterRecursiveCall], which raises [RecursionError] when
    the recursion limit leaves no room: [depth] is the number of
    containers that may still be open one inside the other, which
    depends on the limit and on how deep the call of [json.loads] sits,
    so it is an argument of [loads].

    The recursion of [scan_once] through objects and arrays is bounded
    by [fuel], which [loads] sets high enough never to run out
    ([JsonFacts.loads_fuel]). *)
Module Json.

(** What a scanner hands back: a value with the text after it and the
    position there; [raise_errmsg(msg, s, pos)]; [StopIteration(pos)];
    another exception, passed on as it is. *)
Inductive scan (A : Type) : Type :=
| Scanned (a : A) (rest : pystr) (pos : nat)
| DecodeError (msg : string) (pos : nat)
| StopIteration (pos : nat)
| Raised (e : exn)
| OutOfFuel.
Arguments Scanned {A} a rest pos.
Arguments DecodeError {A} msg pos.
Arguments StopIteration {A} pos.
Arguments Raised {A} e.
Arguments OutOfFuel {A}.

Definition scan_map {A B} (f : A -> B) (r : scan A) : scan B :=
  match r with
  | Scanned a rest pos => Scanned (f a) rest pos
  | DecodeError msg pos => DecodeError msg pos
  | StopIteration pos => StopIteration pos
  | Raised e => Raised e
  | OutOfFuel => OutOfFuel
  end.

(** [IS_WHITESPACE]: space, tab, line feed, carriage return. *)
Definition is_ws (c : pychar) : bool :=
  ((c =? 32) || (c =? 9) || (c =? 10) || (c =? 13))%N.

Fixpoint skip_ws (s : pystr) (pos : nat) : pystr * nat :=
  match s with
  | c :: s' => if is_ws c then skip_ws s' (S pos) else (s, pos)
  | [] => ([], pos)
  end.

Definition is_digit (c : pychar) : bool := ((48 <=? c) && (c <=? 57))%N.

Definition hex_digit (c : pychar) : option N :=
  if ((48 <=? c) && (c <=? 57))%N then Some (c - 48)%N
  else if ((97 <=? c) && (c <=? 102))%N then Some (c - 87)%N
  else if ((65 <=? c) && (c <=? 70))%N then Some (c - 55)%N
  else None.

(** The four hex digits of a [\uXXXX] escape. *)
Definition hex4 (a b c d : pychar) : option N :=
  match hex_digit a, hex_digit b, hex_digit c, hex_digit d with
  | Some x, Some y, Some z, Some w => Some (((x * 16 + y) * 16 + z) * 16 + w)%N
  | _, _, _, _ => None
  end.

Definition is_high_surrogate (c : N) : bool := ((55296 <=? c) && (c <=? 56319))%N.
Definition is_low_surrogate (c : N) : bool := ((56320 <=? c) && (c <=? 57343))%N.
Definition join_surrogates (hi lo : N) : N :=
  (65536 + ((hi - 55296) * 1024 + (lo - 56320)))%N.

(** The one-letter escapes after a backslash. *)
Definition simple_escape (c : pychar) : option pychar :=
  if (c =? 34)%N then Some 34%N          (* quote *)
  else if (c =? 92)%N then Some 92%N     (* backslash *)
  else if (c =? 47)%N then Some 47%N     (* slash *)
  else if (c =? 98)%N then Some 8%N      (* b *)
  else if (c =? 102)%N then Some 12%N    (* f *)
  else if (c =? 110)%N then Some 10%N    (* n *)
  else if (c =? 114)%N then Some 13%N    (* r *)
  else if (c =? 116)%N then Some 9%N     (* t *)
  else None.

(** [idx <= end_idx && str[idx] == c] *)
Definition head_is (c : pychar) (s : pystr) : bool :=
  match s with
  | x :: _ => (x =? c)%N
  | [] => false
  end.

(** [scanstring(s, end)]: [s] starts just after the opening quote, which
    sits at index [begin]; [acc] holds the decoded characters so far,
    last first.  A [\uXXXX] escape needs a character after its four
    digits; a high surrogate is joined with a low surrogate escaped
    right after it when a character follows that one too. *)
Fixpoint scanstring (s : pystr) (pos begin : nat) (acc : pystr) : scan pystr :=
  match s with
  | [] => DecodeError "Unterminated string starting at" begin
  | c :: s1 =>
      if (c =? 34)%N then Scanned (rev acc) s1 (pos + 1)
      else if (c =? 92)%N then
        match s1 with
        | [] => DecodeError "Unterminated string starting at" begin
        | e :: s2 =>
            if (e =? 117)%N then
              match s2 with
              | h1 :: h2 :: h3 :: h4 :: ((_ :: _) as s6) =>
                  match hex4 h1 h2 h3 h4 with
                  | None => DecodeError "Invalid \uXXXX escape" (pos + 1)
                  | Some u1 =>
                      match s6 with
                      | b :: u :: g1 :: g2 :: g3 :: g4 :: ((_ :: _) as s12) =>
                          if is_high_surrogate u1 && (b =? 92)%N && (u =? 117)%N then
                            match hex4 g1 g2 g3 g4 with
                            | None => DecodeError "Invalid \uXXXX escape" (pos + 7)
                            | Some u2 =>
                                if is_low_surrogate u2
                                then scanstring s12 (pos + 12) begin
                                       (join_surrogates u1 u2 :: acc)
                                else scanstring s6 (pos + 6) begin (u1 :: acc)
                            end
                          else scanstring s6 (pos + 6) begin (u1 :: acc)
                      | _ => scanstring s6 (pos + 6) begin (u1 :: acc)
                      end
                  end
              | _ => DecodeError "Invalid \uXXXX escape" (pos + 1)
              end
            else
              match simple_escape e with
              | Some d => scanstring s2 (pos + 2) begin (d :: acc)
              | None => DecodeError "Invalid \escape" pos
              end
        end
      else if (c <=? 31)%N then DecodeError "Invalid control character at" pos
      else scanstring s1 (pos + 1) begin (c :: acc)
  end.

(** The longest run of decimal digits at the front of [s]. *)
Fixpoint span_digits (s : pystr) : pystr * pystr :=
  match s with
  | c :: s' =>
      if is_digit c then let (ds, r) := span_digits s' in (c :: ds, r)
      else ([], s)
  | [] => ([], [])
  end.

(** The number a run of decimal digits denotes. *)
Definition int_of_digits (ds : pystr) : Z :=
  fold_left (fun acc d => (acc * 10 + (Z.of_N d - 48))%Z) ds 0%Z.

(** [sys.int_info.default_max_str_digits]; the program leaves the limit
    at its default. *)
Definition int_max_str_digits : nat := 4300.

(** The [ValueError] of [int] for a numeral of [n] digits, [n] above
    the limit. *)
Definition int_too_long (n : nat) : exn :=
  mkExn ValueError
        (py "Exceeds the limit (" ++ str_of_nat int_max_str_digits
         ++ py " digits) for integer string conversion: value has "
         ++ str_of_nat n
         ++ py " digits; use sys.set_int_max_str_digits() to increase the limit").

(** [int(sign + digits)] for the integer lexeme of a JSON number. *)
Definition int_of_lexeme (sign digits : pystr) : result Z :=
  if int_max_str_digits <? List.length digits
  then Raise (int_too_long (List.length digits))
  else Return (match sign with
               | [] => int_of_digits digits
               | _ :: _ => - int_of_digits digits
               end)%Z.

(** The four parts of a number, each returning what it matched and the
    text after it: an optional minus; [0] or a digit [1-9] and the
    digits after it; a point and at least one digit; [e] or [E], an
    optional sign and at least one digit. *)
Definition scan_sign (s : pystr) : pystr * pystr :=
  if head_is 45%N s then ([45%N], tl s) else ([], s).

Definition scan_integer (s : pystr) : option (pystr * pystr) :=
  match s with
  | [] => None
  | d :: s2 =>
      if ((49 <=? d) && (d <=? 57))%N
      then let (ds, r) := span_digits s2 in Some (d :: ds, r)
      else if (d =? 48)%N then Some ([d], s2)
      else None
  end.

Definition scan_frac (s : pystr) : pystr * pystr :=
  match s with
  | dot :: f :: s' =>
      if (dot =? 46)%N && is_digit f
      then let (fs, r) := span_digits s' in (dot :: f :: fs, r)
      else ([], s)
  | _ => ([], s)
  end.

Definition scan_exp_sign (s : pystr) : pystr * pystr :=
  match s with
  | g :: (_ :: _) as t =>
      if ((g =? 45) || (g =? 43))%N then ([g], t) else ([], s)
  | _ => ([], s)
  end.

Definition scan_exp (s : pystr) : pystr * pystr :=
  match s with
  | e :: s' =>
      if ((e =? 101) || (e =? 69))%N then
        let (esign, s'') := scan_exp_sign s' in
        match span_digits s'' with
        | ([], _) => ([], s)
        | (es, r) => (e :: esign ++ es, r)
        end
      else ([], s)
  | [] => ([], s)
  end.

(** [_match_number]: the whole lexeme is matched first; it is an [int]
    when neither fraction nor exponent is present, a [float] otherwise. *)
Definition match_number (s : pystr) (pos : nat) : scan pyobj :=
  let (sign, s1) := scan_sign s in
  match scan_integer s1 with
  | None => StopIteration pos
  | Some (integer, s3) =>
      let (frac, s4) := scan_frac s3 in
      let (exp, s5) := scan_exp s4 in
      let lexeme := sign ++ integer ++ frac ++ exp in
      let value :=
        match frac, exp with
        | [], [] =>
            match int_of_lexeme sign integer with
            | Return z => Return (PyInt z)
            | Raise e => Raise e
            end
        | _, _ => Return (PyFloat lexeme)
        end in
      match value with
      | Return v => Scanned v s5 (pos + List.length lexeme)
      | Raise e => Raised e
      end
  end.

(** The named constants of [scan_once]. *)
Definition constants : list (pystr * pyobj) :=
  [(py "null", PyNone); (py "true", PyBool true); (py "false", PyBool false);
   (py "NaN", PyFloat (py "NaN")); (py "Infinity", PyFloat (py "Infinity"));
   (py "-Infinity", PyFloat (py "-Infinity"))].

Fixpoint match_constant (table : list (pystr * pyobj)) (s : pystr)
  : option (pystr * pyobj) :=
  match table with
  | [] => None
  | (name, value) :: table' =>
      if startswith s name then Some (name, value) else match_constant table' s
  end.

(** The [RecursionError] of [Py_EnterRecursiveCall] in [scan_once]. *)
Definition recursion_error (what : string) : exn :=
  mkExn RecursionError
        (py "maximum recursion depth exceeded while decoding a JSON "
         ++ py what ++ py " from a unicode string").

(** [scan_once], [_parse_object] and [_parse_array].  [object_loop] and
    [array_loop] are the bodies of the two [while (1)] loops, entered
    with the text at the next key (resp. element) and [pairs] (resp.
    [items]) read so far, last first.  An object or an array is entered
    only when [depth] leaves room for one more, and what it holds is
    scanned with one less. *)
Fixpoint scan_once (fuel depth : nat) (s : pystr) (pos : nat) : scan pyobj :=
  match fuel with
  | O => OutOfFuel
  | S fuel' =>
      match s with
      | [] => StopIteration pos
      | c :: s1 =>
          if (c =? 34)%N then scan_map PyStr (scanstring s1 (pos + 1) pos [])
          else if (c =? 123)%N then
            match depth with
            | O => Raised (recursion_error "object")
            | S depth' =>
                let (s2, p2) := skip_ws s1 (pos + 1) in
                if head_is 125%N s2 then Scanned (PyDict []) (tl s2) (p2 + 1)
                else object_loop fuel' depth' s2 p2 []
            end
          else if (c =? 91)%N then
            match depth with
            | O => Raised (recursion_error "array")
            | S depth' =>
                let (s2, p2) := skip_ws s1 (pos + 1) in
                if head_is 93%N s2 then Scanned (PyList []) (tl s2) (p2 + 1)
                else array_loop fuel' depth' s2 p2 []
            end
          else
            match match_constant constants s with
            | Some (name, value) =>
                Scanned value (skipn (List.length name) s) (pos + List.length name)
            | None => match_number s pos
            end
      end
  end

with object_loop (fuel depth : nat) (s : pystr) (pos : nat)
                 (pairs : list (pystr * pyobj)) : scan pyobj :=
  match fuel with
  | O => OutOfFuel
  | S fuel' =>
      if head_is 34%N s then
        match scanstring (tl s) (pos + 1) pos [] with
        | Scanned key s2 p2 =>
            let (s3, p3) := skip_ws s2 p2 in
            if head_is 58%N s3 then
              let (s5, p5) := skip_ws (tl s3) (p3 + 1) in
              match scan_once fuel' depth s5 p5 with
              | Scanned val s6 p6 =>
                  let (s7, p7) := skip_ws s6 p6 in
                  if head_is 125%N s7 then
                    Scanned (PyDict (dict_of_pairs (rev ((key, val) :: pairs))))
                            (tl s7) (p7 + 1)
                  else if head_is 44%N s7 then
                    let (s9, p9) := skip_ws (tl s7) (p7 + 1) in
                    object_loop fuel' depth s9 p9 ((key, val) :: pairs)
                  else DecodeError "Expecting ',' delimiter" p7
              | r => r
              end
            else DecodeError "Expecting ':' delimiter" p3
        | DecodeError msg p => DecodeError msg p
        | StopIteration p => StopIteration p
        | Raised e => Raised e
        | OutOfFuel => OutOfFuel
        end
      else DecodeError "Expecting property name enclosed in double quotes" pos
  end

with array_loop (fuel depth : nat) (s : pystr) (pos : nat)
                (items : list pyobj) : scan pyobj :=
  match fuel with
  | O => OutOfFuel
  | S fuel' =>
      match scan_once fuel' depth s pos with
      | Scanned val s1 p1 =>
          let (s2, p2) := skip_ws s1 p1 in
          if head_is 93%N s2 then Scanned (PyList (rev (val :: items))) (tl s2) (p2 + 1)
          else if head_is 44%N s2 then
            let (s4, p4) := skip_ws (tl s2) (p2 + 1) in
            array_loop fuel' depth s4 p4 (val :: items)
          else DecodeError "Expecting ',' delimiter" p2
      | r => r
      end
  end.

(** [JSONDecodeError(msg, doc, pos)]; its [str()] is
    ["%s: line %d column %d (char %d)"]. *)
Definition lineno (doc : pystr) (pos : nat) : nat :=
  List.length (split (firstn pos doc) NL).

Definition colno (doc : pystr) (pos : nat) : nat :=
  List.length (last (split (firstn pos doc) NL) []) + 1.

Definition decode_error (msg : string) (doc : pystr) (pos : nat) : exn :=
  mkExn JSONDecodeError
        (py msg ++ py ": line " ++ str_of_nat (lineno doc pos)
         ++ py " column " ++ str_of_nat (colno doc pos)
         ++ py " (char " ++ str_of_nat pos ++ py ")").

(** [json.loads(s)] for a [str] argument, called where [depth] more
    containers may be entered.  The last case does not arise. *)
Definition loads (depth : nat) (s : pystr) : result pyobj :=
  if startswith s [65279%N]
  then Raise (decode_error "Unexpected UTF-8 BOM (decode using utf-8-sig)" s 0)
  else
    let (s1, p1) := skip_ws s 0 in
    match scan_once (S (2 * List.length s)) depth s1 p1 with
    | Scanned obj s2 p2 =>
        let (s3, p3) := skip_ws s2 p2 in
        match s3 with
        | [] => Return obj
        | _ :: _ => Raise (decode_error "Extra data" s p3)
        end
    | DecodeError msg p => Raise (decode_error msg s p)
    | StopIteration p => Raise (decode_error "Expecting value" s p)
    | Raised e => Raise e
    | OutOfFuel => Raise (decode_error "Expecting value" s p1)
    end.

(** The characters a JSON value can start with: a quote, a brace, a
    bracket, the first letter of a constant, a minus or a digit. *)
Definition value_start (c : pychar) : bool :=
  ((c =? 34) || (c =? 123) || (c =? 91) || (c =? 110) || (c =? 116)
   || (c =? 102) || (c =? 78) || (c =? 73) || (c =? 45) || is_digit c)%N.

(** Properties of a scanner [P] used to state facts about the decoder:
    a success leaves less text than it was given; a success on a text
    that ends in a space stops before that space and is a success on the
    text without it. *)
Definition rest_lt (P : pystr -> nat -> scan pyobj) : Prop :=
  forall s pos v r q, P s pos = Scanned v r q -> List.length r < List.length s.



(** A text of JSON white space only. *)
Definition all_ws (r : pystr) : Prop := Forall (fun c => is_ws c = true) r.


End Json.

(* ================================================================== *)
(** * The process: effects and their trace *)
(* ================================================================== *)

Definition bytes := list byte.

(** The calls that leave the program, in the order they are made. *)
Inductive event : Type :=
| EvFileRead                                  (* [await file.read()] *)
| EvClientInit (api_key : pystr)              (* [genai.Client(api_key=...)] *)
| EvImageVerify (image_data : bytes)          (* [Image.open(...).verify()] *)
| EvGenerateContent (api_key model prompt : pystr)
                    (image_data : bytes) (mime_type : pystr).

(** Process environment: [os.environ] and the [.env] file, each as the
    ordered list of its [(name, value)] bindings. *)
Definition env_vars := list (pystr * pystr).

(* ================================================================== *)
(** * app/core/config.py *)
(* ================================================================== *)

Module Config.

(** [class Settings(BaseSettings)] *)
Record Settings : Type := mkSettings {
  gemini_api_key : pystr;
  app_name : pystr;
  debug : bool;
  port : Z
}.

(** The defaults written in the class body. *)
Definition default_settings : Settings :=
  {| gemini_api_key := py "";
     app_name := py "Divvit Backend";
     debug := false;
     port := 8080 |}.


(** What the module owns while the process runs: the two sources it
    reads, the single slot of [@lru_cache] on [get_settings], and the
    number of times [Settings()] has been built. *)
Record Process : Type := mkProcess {
  environ : env_vars;
  dotenv : env_vars;
  cache : option Settings;
  builds : nat
}.

Section BaseSettings.

(** [str.lower], and pydantic's coercions of a variable's text to
    [bool] and [int] ([None] when it rejects the text). *)
Variable str_lower : pystr -> pystr.
Variable validate_bool : pystr -> option bool.
Variable validate_int : pystr -> option Z.
(** [str()] of the [ValidationError] for the rejected fields. *)
Variable validation_message : list pystr -> pystr.

(** [{k.lower(): v for k, v in vars.items()}.get(name)]: of the
    variables whose lowered name is [name], the last one. *)
Fixpoint lookup_ci (vars : env_vars) (name : pystr) : option pystr :=
  match vars with
  | [] => None
  | (k, v) :: vars' =>
      match lookup_ci vars' name with
      | Some v' => Some v'
      | None => if str_eqb (str_lower k) name then Some v else None
      end
  end.

(** The environment takes precedence over the [.env] file; names that
    belong to no field are never looked up ([extra = "ignore"]). *)
Definition field_source (environ dotenv : env_vars) (name : pystr)
  : option pystr :=
  match lookup_ci environ name with
  | Some v => Some v
  | None => lookup_ci dotenv name
  end.

(** No variable of [vars] has [name] as its lowered name. *)
Definition absent (vars : env_vars) (name : pystr) : Prop :=
  forall k v, In (k, v) vars -> str_lower k <> name.

(** [Settings()] *)
Definition Settings_new (environ dotenv : env_vars) : result Settings :=
  let src := field_source environ dotenv in
  let key := match src (py "gemini_api_key") with
             | Some v => v
             | None => gemini_api_key default_settings
             end in
  let name := match src (py "app_name") with
              | Some v => v
              | None => app_name default_settings
              end in
  let dbg := match src (py "debug") with
             | Some v => validate_bool v
             | None => Some (debug default_settings)
             end in
  let prt := match src (py "port") with
             | Some v => validate_int v
             | None => Some (port default_settings)
             end in
  match dbg, prt with
  | Some d, Some p =>
      Return {| gemini_api_key := key; app_name := name; debug := d; port := p |}
  | None, Some _ => Raise (mkExn ValueError (validation_message [py "debug"]))
  | Some _, None => Raise (mkExn ValueError (validation_message [py "port"]))
  | None, None =>
      Raise (mkExn ValueError (validation_message [py "debug"; py "port"]))
  end.

(** [@lru_cache def get_settings(): return Settings()].  A call that
    raises leaves the cache empty. *)
Definition get_settings (p : Process) : result Settings * Process :=
  match cache p with
  | Some s => (Return s, p)
  | None =>
      match Settings_new (environ p) (dotenv p) with
      | Return s =>
          (Return s, {| environ := environ p; dotenv := dotenv p;
                        cache := Some s; builds := S (builds p) |})
      | Raise e =>
          (Raise e, {| environ := environ p; dotenv := dotenv p;
                       cache := None; builds := S (builds p) |})
      end
  end.

End BaseSettings.

End Config.

(* ================================================================== *)
(** * State shared by the service and the endpoint *)
(* ================================================================== *)

(** [os.environ], the module-level [settings] object bound when
    [app.core.config] was imported, and the trace of outside calls. *)
Record World : Type := mkWorld {
  os_environ : env_vars;
  settings : Config.Settings;
  trace : list event
}.

(** Computations that read and extend the world and may raise. *)
Definition M (A : Type) : Type := World -> result A * World.

Definition ret {A} (a : A) : M A := fun w => (Return a, w).

Definition bind {A B} (m : M A) (k : A -> M B) : M B :=
  fun w =>
    match m w with
    | (Return a, w') => k a w'
    | (Raise e, w') => (Raise e, w')
    end.

Definition raise {A} (e : exn) : M A := fun w => (Raise e, w).

(** [try: body  except Exception as e: handler(e)] *)
Definition try_except {A} (body : M A) (handler : exn -> M A) : M A :=
  fun w =>
    match body w with
    | (Return a, w') => (Return a, w')
    | (Raise e, w') => handler e w'
    end.

Definition lift {A} (r : result A) : M A := fun w => (r, w).

(** The world after some more outside calls. *)
Definition extend (w : World) (evs : list event) : World :=
  {| os_environ := os_environ w; settings := settings w;
     trace := trace w ++ evs |}.

Definition emit (ev : event) : M unit :=
  fun w => (Return tt, extend w [ev]).

(** How many times a trace calls the upstream model. *)
Fixpoint upstream_calls (tr : list event) : nat :=
  match tr with
  | [] => 0
  | EvGenerateContent _ _ _ _ _ :: tr' => S (upstream_calls tr')
  | _ :: tr' => upstream_calls tr'
  end.

Definition get_world : M World := fun w => (Return w, w).

Declare Scope py_scope.
Delimit Scope py_scope with py.
Notation "x <- m ;; k" := (bind m (fun x => k))
  (at level 61, m at next level, right associativity) : py_scope.
Notation "m ;;; k" := (bind m (fun _ => k))
  (at level 61, right associativity) : py_scope.
Open Scope py_scope.

(** [os.environ.get(name, default)] *)
Fixpoint environ_get (env : env_vars) (name default : pystr) : pystr :=
  match env with
  | [] => default
  | (k, v) :: env' => if str_eqb k name then v else environ_get env' name default
  end.

(* ================================================================== *)
(** * app/services/gemini.py *)
(* ================================================================== *)

Module Gemini.

(** What [client.models.generate_content] hands back: a response with a
    text, a response whose [.text] is [None], or an exception. *)
Inductive reply : Type :=
| ReplyText (text : pystr)
| ReplyNoText
| ReplyRaise (e : exn).

(** The instance attributes set by [__init__]; the client is identified
    by the key it was built with. *)
Record GeminiService : Type := mkService {
  client : pystr;
  model_name : pystr
}.

Definition fence : pystr := py "```".

(** The instruction text sent with every image. *)
Definition prompt : pystr := pyq
"Extract items (name, price), tax, tip, and total from this receipt.

Return ONLY valid JSON in this exact format:
{
    'items': [
        {'name': 'item name', 'price': 0.00, 'quantity': 1}
    ],
    'subtotal': 0.00,
    'tax': 0.00,
    'total': 0.00,
    'scanned_tip': 0.00
}

Rules:
- Return ONLY the raw JSON object, no markdown formatting or code blocks
- Prices should be numbers (floats), not strings
- If a value is not found, use null
- Include all line items from the receipt
- Be accurate with the prices and names
".

(** Lines 87-93: trim, then drop the first and the last line of a text
    that starts with a fence. *)
Definition strip_fences (text : pystr) : pystr :=
  let response_text := strip text in
  if startswith response_text fence
  then
    let lines := split response_text NL in
    join [NL] (slice lines 1 (-1))
  else response_text.

(** The same removal described on the text itself rather than on its
    list of lines: what lies strictly between the first and the last
    line feed, and nothing when there are fewer than two. *)
Fixpoint after_first_line (s : pystr) : option pystr :=
  match s with
  | [] => None
  | c :: s' => if N.eqb c NL then Some s' else after_first_line s'
  end.

Fixpoint before_last_line (s : pystr) : option pystr :=
  match s with
  | [] => None
  | c :: s' =>
      match before_last_line s' with
      | Some m => Some (c :: m)
      | None => if N.eqb c NL then Some [] else None
      end
  end.

Definition drop_first_and_last_line (s : pystr) : pystr :=
  match after_first_line s with
  | Some r =>
      match before_last_line r with
      | Some m => m
      | None => []
      end
  | None => []
  end.

(** Lines 87-96: the response normalizer, where [depth] more JSON
    containers may be entered. *)
Definition normalize_response (depth : nat) (text : pystr) : result pyobj :=
  Json.loads depth (strip_fences text).

(** Line 23: [settings.gemini_api_key or os.environ.get("GEMINI_API_KEY", "")] *)
Definition resolve_api_key (settings : Config.Settings) (env : env_vars) : pystr :=
  or_else (Config.gemini_api_key settings)
          (environ_get env (py "GEMINI_API_KEY") (py "")).

(** Lines 98-101: the two [except] clauses around the model call. *)
Definition reraise (e : exn) : exn :=
  if is_JSONDecodeError (exc_cls e)
  then mkExn ValueError
             (py "Failed to parse Gemini response as JSON: " ++ exc_str e)
  else mkExn RuntimeError (py "Gemini API error: " ++ exc_str e).

(** Line 45: the [except] clause around the image check. *)
Definition invalid_image (e : exn) : exn :=
  mkExn ValueError (py "Invalid image file: " ++ exc_str e).

Section Service.

(** The libraries behind the service: Pillow's check of the upload
    ([Some e] when [Image.open] or [verify] raises [e]), the
    constructor of the API client, and the model call. *)
Variable Image_verify : bytes -> option exn.
Variable genai_Client : pystr -> option exn.
Variable generate_content : pystr -> pystr -> pystr -> bytes -> pystr -> reply.

(** The room the interpreter's recursion limit leaves where
    [parse_receipt] calls [json.loads]: the number of JSON containers
    that may be open one inside the other.  The call sits at the same
    depth in every request. *)
Variable recursion_headroom : nat.

(** [GeminiService.__init__] *)
Definition init : M GeminiService :=
  w <- get_world ;;
  let api_key := resolve_api_key (settings w) (os_environ w) in
  emit (EvClientInit api_key) ;;;
  match genai_Client api_key with
  | Some e => raise e
  | None => ret {| client := api_key; model_name := py "gemini-2.5-flash" |}
  end.

(** [response.text.strip()] starts here: [.text] may be [None]. *)
Definition response_text (r : reply) : M pystr :=
  match r with
  | ReplyText t => ret t
  | ReplyNoText =>
      raise (mkExn AttributeError
                   (py "'NoneType' object has no attribute 'strip'"))
  | ReplyRaise e => raise e
  end.

(** [GeminiService.parse_receipt] *)
Definition parse_receipt (self : GeminiService) (image_data : bytes)
           (content_type : pystr) : M pyobj :=
  try_except
    (emit (EvImageVerify image_data) ;;;
     match Image_verify image_data with
     | Some e => raise e
     | None => ret tt
     end)
    (fun e => raise (invalid_image e)) ;;;
  try_except
    (emit (EvGenerateContent (client self) (model_name self) prompt
                             image_data content_type) ;;;
     text <- response_text (generate_content (client self) (model_name self)
                                             prompt image_data content_type) ;;
     lift (normalize_response recursion_headroom text))
    (fun e => raise (reraise e)).

End Service.

(** The model call the service makes for an image. *)
Definition upstream_call (self : GeminiService) (data : bytes) (ct : pystr)
  : event :=
  EvGenerateContent (client self) (model_name self) prompt data ct.

(** The outcome of the second [try] block for each thing the model call
    can hand back, used to state what [parse_receipt] does. *)
Definition after_reply (depth : nat) (r : reply) : result pyobj :=
  match r with
  | ReplyText t =>
      match normalize_response depth t with
      | Return v => Return v
      | Raise e => Raise (reraise e)
      end
  | ReplyNoText =>
      Raise (reraise (mkExn AttributeError
                            (py "'NoneType' object has no attribute 'strip'")))
  | ReplyRaise e => Raise (reraise e)
  end.

End Gemini.

(* ================================================================== *)
(** * app/api/endpoints/receipts.py *)
(* ================================================================== *)

Module Receipts.

(** The uploaded part: its declared content type (absent when the part
    carries no such header) and its body. *)
Record UploadFile : Type := mkUpload {
  content_type : option pystr;
  contents : bytes
}.

(** What the route hands to the framework: the returned object, sent as
    the body of a 200, or an [HTTPException]. *)
Inductive response : Type :=
| Ok200 (body : pyobj)
| HTTPException (status_code : Z) (detail : pystr).

Definition allowed_types : list pystr :=
  [py "image/jpeg"; py "image/png"; py "image/webp"; py "image/heic"].

(** [x in allowed_types], for [x] a [str] or [None] *)
Definition in_allowed (ct : option pystr) : bool :=
  match ct with
  | Some t => existsb (str_eqb t) allowed_types
  | None => false
  end.

(** The rejection raised before the [try] block. *)
Definition invalid_file_type : response :=
  HTTPException 400
    (py "Invalid file type. Allowed types: " ++ join (py ", ") allowed_types).

(** The two [except] clauses of the route. *)
Definition on_exception (e : exn) : response :=
  if is_ValueError (exc_cls e)
  then HTTPException 400 (exc_str e)
  else HTTPException 500 (py "Failed to process receipt: " ++ exc_str e).

Section Endpoint.

Variable Image_verify : bytes -> option exn.
Variable genai_Client : pystr -> option exn.
Variable generate_content :
  pystr -> pystr -> pystr -> bytes -> pystr -> Gemini.reply.
Variable recursion_headroom : nat.

(** The body of the [try] block. *)
Definition process (file : UploadFile) (ct : pystr) : M pyobj :=
  emit EvFileRead ;;;
  let contents := contents file in
  gemini_service <- Gemini.init genai_Client ;;
  result <- Gemini.parse_receipt Image_verify generate_content
                                 recursion_headroom
                                 gemini_service contents ct ;;
  ret result.

(** [scan_receipt].  A part without a content type has [None] there,
    which is not in the list either. *)
Definition scan_receipt (file : UploadFile) (w : World) : response * World :=
  match content_type file with
  | None => (invalid_file_type, w)
  | Some ct =>
      if negb (in_allowed (Some ct)) then (invalid_file_type, w)
      else
        match process file ct w with
        | (Return result, w') => (Ok200 result, w')
        | (Raise e, w') => (on_exception e, w')
        end
  end.

End Endpoint.

End Receipts.

(* ================================================================== *)
(** * Test doubles and sample requests *)
(* ================================================================== *)

Module Scenario.

(** An image check that accepts everything, and one that rejects
    everything with Pillow's message. *)
Definition image_ok : bytes -> option exn := fun _ => None.

Definition image_bad : bytes -> option exn :=
  fun _ => Some (mkExn Exception (py "cannot identify image file")).

(** A client constructor that never raises, and one that refuses the
    empty key as the SDK does. *)
Definition client_ok : pystr -> option exn := fun _ => None.

Definition missing_key : pystr :=
  py "Missing key inputs argument! To use the Google AI API, provide (`api_key`) arguments. To use the Google Cloud API, provide (`vertexai`, `project` & `location`) arguments.".

Definition client_needs_key : pystr -> option exn :=
  fun key =>
    match key with
    | [] => Some (mkExn ValueError missing_key)
    | _ :: _ => None
    end.

(** Room for 900 nested containers: a recursion limit of 1000 with a
    hundred frames in use. *)
Definition headroom : nat := 900.

(** A model that answers every call with the same text, and one whose
    call raises. *)
Definition model_says (text : pystr)
  : pystr -> pystr -> pystr -> bytes -> pystr -> Gemini.reply :=
  fun _ _ _ _ _ => Gemini.ReplyText text.

Definition model_fails (e : exn)
  : pystr -> pystr -> pystr -> bytes -> pystr -> Gemini.reply :=
  fun _ _ _ _ _ => Gemini.ReplyRaise e.

(** The first bytes of a PNG file. *)
Definition png : bytes := [x89; x50; x4e; x47; x0d; x0a; x1a; x0a].

Definition upload : Receipts.UploadFile :=
  {| Receipts.content_type := Some (py "image/png"); Receipts.contents := png |}.

Definition gif_upload : Receipts.UploadFile :=
  {| Receipts.content_type := Some (py "image/gif"); Receipts.contents := png |}.

(** A process with the key in the environment only. *)
Definition world : World :=
  {| os_environ := [(py "PATH", py "/usr/bin"); (py "GEMINI_API_KEY", py "k-123")];
     settings := Config.default_settings;
     trace := [] |}.

(** A process with no key anywhere. *)
Definition keyless_world : World :=
  {| os_environ := [(py "PATH", py "/usr/bin")];
     settings := Config.default_settings;
     trace := [] |}.

Definition service : Gemini.GeminiService :=
  {| Gemini.client := py "k-123"; Gemini.model_name := py "gemini-2.5-flash" |}.

(** Model answers. *)
Definition fenced_items : pystr :=
  py "```json" ++ NL :: pyq "{'items':[]}" ++ NL :: py "```".

Definition unclosed_fence : pystr :=
  py "```json" ++ NL :: pyq "{'items':[]}" ++ NL :: pyq "{'total': 1}".

Definition apology : pystr := py "Sorry, I cannot read this receipt.".

(** An array that starts with an integer of 4301 digits, and arrays
    opened one inside the other, one more than there is room for. *)
Definition long_integer : pystr := 91%N :: repeat 49%N 4301.

Definition deep_nesting : pystr := repeat 91%N (S headroom).

Definition coffee : pystr :=
  pyq "{'items':[{'name':'Coffee','price':4.50,'quantity':1}],'subtotal':4.50,'tax':0.40,'total':4.90,'scanned_tip':null}".

Definition coffee_object : pyobj :=
  PyDict
    [(py "items",
      PyList [PyDict [(py "name", PyStr (py "Coffee"));
                      (py "price", PyFloat (py "4.50"));
                      (py "quantity", PyInt 1)]]);
     (py "subtotal", PyFloat (py "4.50"));
     (py "tax", PyFloat (py "0.40"));
     (py "total", PyFloat (py "4.90"));
     (py "scanned_tip", PyNone)].

(** ASCII lowering and the plainest readings of a flag and a number,
    standing in for [str.lower] and pydantic's coercions. *)
Definition ascii_lower (s : pystr) : pystr :=
  List.map (fun c => if ((65 <=? c) && (c <=? 90))%N then (c + 32)%N else c) s.

Definition flag_of (s : pystr) : option bool :=
  if str_eqb s (py "true") then Some true
  else if str_eqb s (py "false") then Some false
  else None.

Definition number_of (s : pystr) : option Z :=
  match s with
  | [] => None
  | _ :: _ =>
      if forallb Json.is_digit s then Some (Json.int_of_digits s) else None
  end.

Definition message_of (fields : list pystr) : pystr :=
  py "validation error for Settings: " ++ join (py ", ") fields.

Definition fresh_process (env : env_vars) : Config.Process :=
  {| Config.environ := env; Config.dotenv := [];
     Config.cache := None; Config.builds := 0 |}.

End Scenario.

(* ================================================================== *)
(** * Further notions used to state facts *)
(* ================================================================== *)

Module Further.

(** A text of white space only, in the sense of [str.strip]. *)
Definition spaces (s : pystr) : Prop := Forall (fun c => isspace c = true) s.


(** [str()] of the decoder's error on a document that starts with no
    value, and on one that starts with a byte order mark. *)
Definition expecting_value : pystr :=
  py "Expecting value: line 1 column 1 (char 0)".

Definition unexpected_bom : pystr :=
  py "Unexpected UTF-8 BOM (decode using utf-8-sig): line 1 column 1 (char 0)".

(** The message for a document whose first character [c] starts no
    value. *)
Definition no_value_message (c : pychar) : pystr :=
  if (c =? 65279)%N then unexpected_bom else expecting_value.

(** The outside calls of a request that gets as far as the model, in
    the order the endpoint and the service make them. *)
Definition full_trace (key : pystr) (file : Receipts.UploadFile) (ct : pystr)
  : list event :=
  [EvFileRead; EvClientInit key; EvImageVerify (Receipts.contents file);
   EvGenerateContent key (py "gemini-2.5-flash") Gemini.prompt
                     (Receipts.contents file) ct].

(** A character at which no number goes on: anything but a digit, a
    point and the letter of an exponent. *)
Definition number_stop (c : pychar) : bool :=
  negb (Json.is_digit c || (c =? 46) || (c =? 101) || (c =? 69))%N.

(** What is left after a value, followed by [x], starts with such a
    character or is empty. *)
Definition settled (r x : pystr) : Prop :=
  match r ++ x with
  | [] => True
  | c :: _ => number_stop c = true
  end.

(** A text that starts with no digit, and one that starts with neither
    a digit nor a point. *)
Definition no_digit (l : pystr) : Prop :=
  match l with
  | [] => True
  | c :: _ => Json.is_digit c = false
  end.

Definition no_fraction (l : pystr) : Prop :=
  match l with
  | [] => True
  | c :: _ => Json.is_digit c = false /\ (c =? 46)%N = false
  end.

(** A text that starts a string, an object or an array. *)
Definition opens (s : pystr) : bool :=
  Json.head_is 34%N s || Json.head_is 123%N s || Json.head_is 91%N s.

(** A scanner that goes the same way when more text is appended. *)
Definition ext_ok (P : pystr -> nat -> Json.scan pyobj) : Prop :=
  forall s pos v r q x,
    P s pos = Json.Scanned v r q ->
    P (s ++ x) pos = Json.Scanned v (r ++ x) q.

End Further.

(* ================================================================== *)
(** * Facts about the string operations *)
(* ================================================================== *)

Module StrFacts.
Import Further.

Lemma str_eqb_eq (a b : pystr) : str_eqb a b = true <-> a = b.
Proof.
  unfold str_eqb. destruct (list_eq_dec N.eq_dec a b); split; congruence.
Qed.

Lemma str_eqb_refl (a : pystr) : str_eqb a a = true.
Proof. now apply str_eqb_eq. Qed.


Lemma split_nonempty (s : pystr) (sep : pychar) : split s sep <> [].
Proof.
  destruct s as [|c s]; simpl; [discriminate|].
  destruct (N.eqb c sep); [discriminate|].
  destruct (split s sep); discriminate.
Qed.

(** Slicing off both ends: [l[1:-1]] is the tail without its last. *)
Lemma slice_1_m1 {A} (x : A) (l : list A) : slice (x :: l) 1 (-1) = removelast l.
Proof.
  unfold slice, slice_index. cbn [List.length].
  replace (1 <? 0)%Z with false by reflexivity.
  replace (-1 <? 0)%Z with true by reflexivity.
  rewrite Z.min_l by lia. rewrite Z.max_r by lia.
  replace (Z.to_nat 1) with 1%nat by reflexivity. cbn [skipn].
  replace (Z.to_nat (-1 + Z.of_nat (S (List.length l)) - 1))
    with (pred (List.length l)) by lia.
  symmetry. apply removelast_firstn_len.
Qed.

Lemma split_no_sep (s : pystr) :
  Gemini.after_first_line s = None -> split s NL = [s].
Proof.
  induction s as [|c s IH]; simpl; [reflexivity|].
  destruct (N.eqb c NL); [discriminate|].
  intros H. now rewrite (IH H).
Qed.

Lemma split_first_sep (s r : pystr) :
  Gemini.after_first_line s = Some r -> exists l, split s NL = l :: split r NL.
Proof.
  revert r. induction s as [|c s IH]; simpl; intros r H; [discriminate|].
  destruct (N.eqb c NL).
  - injection H as <-. now exists [].
  - destruct (IH r H) as [l ->]. now exists (c :: l).
Qed.

Lemma join_cons (sep p : pystr) (ps : list pystr) :
  ps <> [] -> join sep (p :: ps) = p ++ sep ++ join sep ps.
Proof. destruct ps; [congruence|reflexivity]. Qed.

(** Joining all lines but the last gives the text before the last
    line feed. *)
Lemma join_removelast_split (r : pystr) :
  match Gemini.before_last_line r with
  | None => removelast (split r NL) = []
  | Some m => removelast (split r NL) <> []
              /\ join [NL] (removelast (split r NL)) = m
  end.
Proof.
  induction r as [|c r IH]; [reflexivity|].
  cbn [Gemini.before_last_line split].
  pose proof (split_nonempty r NL) as Hne.
  destruct (split r NL) as [|l ls] eqn:Hs; [congruence|].
  destruct (Gemini.before_last_line r) as [m|].
  - destruct IH as [Hn Hj].
    assert (Hls : ls <> []) by (intros ->; now apply Hn).
    destruct ls as [|l2 ls]; [congruence|].
    destruct (N.eqb c NL) eqn:Hc.
    + apply N.eqb_eq in Hc. subst c. split; [discriminate|].
      change (removelast ([] :: l :: l2 :: ls))
        with ([] :: removelast (l :: l2 :: ls)).
      rewrite join_cons by exact Hn. now rewrite Hj.
    + change (removelast ((c :: l) :: l2 :: ls))
        with ((c :: l) :: removelast (l2 :: ls)).
      change (removelast (l :: l2 :: ls))
        with (l :: removelast (l2 :: ls)) in Hj.
      split; [discriminate|].
      destruct (removelast (l2 :: ls)) as [|q qs] eqn:Hq.
      * simpl in Hj |- *. now rewrite Hj.
      * rewrite join_cons by discriminate.
        rewrite join_cons in Hj by discriminate.
        now rewrite <- Hj.
  - destruct ls as [|l2 ls].
    + destruct (N.eqb c NL) eqn:Hc.
      * split; [discriminate|]. reflexivity.
      * reflexivity.
    + change (removelast (l :: l2 :: ls))
        with (l :: removelast (l2 :: ls)) in IH. discriminate.
Qed.

(** The list-of-lines code of the source computes the text-level
    description. *)
Lemma join_middle_lines (s : pystr) :
  join [NL] (slice (split s NL) 1 (-1)) = Gemini.drop_first_and_last_line s.
Proof.
  unfold Gemini.drop_first_and_last_line.
  destruct (Gemini.after_first_line s) as [r|] eqn:Ha.
  - destruct (split_first_sep s r Ha) as [l ->]. rewrite slice_1_m1.
    pose proof (join_removelast_split r) as H.
    destruct (Gemini.before_last_line r) as [m|].
    + apply H.
    + now rewrite H.
  - rewrite (split_no_sep s Ha). reflexivity.
Qed.

Lemma after_first_line_app (a b : pystr) :
  ~ In NL a -> Gemini.after_first_line (a ++ NL :: b) = Some b.
Proof.
  induction a as [|c a IH]; simpl; intros H.
  - reflexivity.
  - destruct (N.eqb c NL) eqn:Hc.
    + apply N.eqb_eq in Hc. exfalso. apply H. now left.
    + apply IH. intros Hin. apply H. now right.
Qed.

Lemma after_first_line_none (a : pystr) :
  ~ In NL a -> Gemini.after_first_line a = None.
Proof.
  induction a as [|c a IH]; simpl; intros H; [reflexivity|].
  destruct (N.eqb c NL) eqn:Hc.
  - apply N.eqb_eq in Hc. exfalso. apply H. now left.
  - apply IH. intros Hin. apply H. now right.
Qed.

Lemma before_last_line_none (a : pystr) :
  ~ In NL a -> Gemini.before_last_line a = None.
Proof.
  induction a as [|c a IH]; simpl; intros H; [reflexivity|].
  rewrite IH by (intros Hin; apply H; now right).
  destruct (N.eqb c NL) eqn:Hc; [|reflexivity].
  apply N.eqb_eq in Hc. exfalso. apply H. now left.
Qed.

Lemma before_last_line_app (a b : pystr) :
  ~ In NL b -> Gemini.before_last_line (a ++ NL :: b) = Some a.
Proof.
  intros Hb. induction a as [|c a IH]; simpl.
  - now rewrite (before_last_line_none _ Hb).
  - now rewrite IH.
Qed.

(** A text of at least three lines loses exactly its first and last. *)
Lemma drop_lines_three (first mid last : pystr) :
  ~ In NL first -> ~ In NL last ->
  Gemini.drop_first_and_last_line (first ++ NL :: mid ++ NL :: last) = mid.
Proof.
  intros Hf Hl. unfold Gemini.drop_first_and_last_line.
  rewrite (after_first_line_app _ _ Hf). now rewrite (before_last_line_app _ _ Hl).
Qed.

(** A text of two lines loses both. *)
Lemma drop_lines_two (first last : pystr) :
  ~ In NL first -> ~ In NL last ->
  Gemini.drop_first_and_last_line (first ++ NL :: last) = [].
Proof.
  intros Hf Hl. unfold Gemini.drop_first_and_last_line.
  rewrite (after_first_line_app _ _ Hf). now rewrite (before_last_line_none _ Hl).
Qed.

(** A text of one line loses it. *)
Lemma drop_lines_one (line : pystr) :
  ~ In NL line -> Gemini.drop_first_and_last_line line = [].
Proof.
  intros H. unfold Gemini.drop_first_and_last_line.
  now rewrite (after_first_line_none _ H).
Qed.

(** A text checked to hold no line feed holds none. *)
Lemma no_line_feed (s : pystr) : existsb (N.eqb NL) s = false -> ~ In NL s.
Proof.
  intros H Hin.
  assert (E : existsb (N.eqb NL) s = true).
  { apply existsb_exists. exists NL. split; [exact Hin | apply N.eqb_refl]. }
  congruence.
Qed.

(** ** [strip] *)

Lemma lstrip_spaces (pad t : pystr) : spaces pad -> lstrip (pad ++ t) = lstrip t.
Proof.
  induction 1 as [|c pad Hc _ IH]; [reflexivity|]. simpl. now rewrite Hc.
Qed.

Lemma lstrip_nil (t : pystr) : spaces t -> lstrip t = [].
Proof.
  intros H. rewrite <- (app_nil_r t). now rewrite lstrip_spaces.
Qed.

Lemma lstrip_nil_spaces (t : pystr) : lstrip t = [] -> spaces t.
Proof.
  induction t as [|c t IH]; [constructor|]. simpl.
  destruct (isspace c) eqn:E; [|discriminate].
  intros H. constructor; [exact E | now apply IH].
Qed.

Lemma lstrip_app (t u : pystr) : lstrip t <> [] -> lstrip (t ++ u) = lstrip t ++ u.
Proof.
  induction t as [|c t IH]; [intros H; now destruct H|]. simpl.
  destruct (isspace c); [exact IH | reflexivity].
Qed.

Lemma lstrip_head (t : pystr) (c : pychar) (x : pystr) :
  lstrip t = c :: x -> isspace c = false.
Proof.
  induction t as [|d t IH]; [discriminate|]. simpl.
  destruct (isspace d) eqn:E; [exact IH|]. intros H. now injection H as <- _.
Qed.

Lemma rstrip_spaces (t pad : pystr) : spaces pad -> rstrip (t ++ pad) = rstrip t.
Proof.
  intros H. unfold rstrip. rewrite rev_app_distr, lstrip_spaces; [reflexivity|].
  now apply Forall_rev.
Qed.

Lemma rstrip_cons (c : pychar) (u : pystr) :
  isspace c = false -> rstrip (c :: u) = c :: rstrip u.
Proof.
  intros Hc. unfold rstrip. cbn [rev].
  assert (E : forall a, lstrip (a ++ [c]) = lstrip a ++ [c]).
  { induction a as [|d a IH]; simpl; [now rewrite Hc|].
    destruct (isspace d); [exact IH | reflexivity]. }
  rewrite E, rev_app_distr. reflexivity.
Qed.

Lemma rstrip_last (a : pystr) (d : pychar) :
  isspace d = false -> rstrip (a ++ [d]) = a ++ [d].
Proof.
  intros Hd. unfold rstrip. rewrite rev_app_distr. cbn [rev app lstrip].
  rewrite Hd. cbn [rev]. now rewrite rev_involutive.
Qed.

(** White space around a text does not survive [strip]. *)
Lemma strip_pad (pad1 t pad2 : pystr) :
  spaces pad1 -> spaces pad2 -> strip (pad1 ++ t ++ pad2) = strip t.
Proof.
  intros H1 H2. unfold strip. rewrite (lstrip_spaces pad1 _ H1).
  destruct (lstrip t) as [|c x] eqn:E.
  - rewrite lstrip_nil; [reflexivity|].
    apply Forall_app. split; [now apply lstrip_nil_spaces | exact H2].
  - rewrite lstrip_app by congruence. rewrite E. now apply rstrip_spaces.
Qed.

(** A stripped text starts with no space. *)
Lemma strip_head (t : pystr) (c : pychar) (x : pystr) :
  strip t = c :: x -> isspace c = false.
Proof.
  unfold strip. destruct (lstrip t) as [|d u] eqn:E; [discriminate|].
  pose proof (lstrip_head t d u E) as Hd.
  rewrite (rstrip_cons d u Hd). intros H. now injection H as <- _.
Qed.

Lemma strip_spaces (t : pystr) : spaces t -> strip t = [].
Proof. intros H. unfold strip. now rewrite lstrip_nil. Qed.

(** A text that neither starts nor ends with a space is its own strip. *)
Lemma strip_id (c : pychar) (m : pystr) (d : pychar) :
  isspace c = false -> isspace d = false ->
  strip (c :: m ++ [d]) = c :: m ++ [d].
Proof.
  intros Hc Hd. unfold strip. cbn [lstrip]. rewrite Hc.
  exact (rstrip_last (c :: m) d Hd).
Qed.







End StrFacts.

(* ================================================================== *)
(** * Facts about the decoder *)
(* ================================================================== *)

Module JsonFacts.
Import Json.

(** Case analysis on whatever a hypothesis branches on next. *)
Ltac break_match_hyp H :=
  match type of H with
  | context [match ?x with _ => _ end] => destruct x eqn:?
  end.

Ltac break_all H :=
  repeat (first [discriminate H | break_match_hyp H]; cbv beta match in H).

Ltac break_match_goal :=
  match goal with
  | |- context [match ?x with _ => _ end] => destruct x eqn:?
  end.

(** ** What a successful scan leaves is shorter than what it was given *)

Lemma scanstring_rest_lt :
  forall n s pos begin acc k r q,
    List.length s <= n ->
    scanstring s pos begin acc = Scanned k r q ->
    List.length r < List.length s.
Proof.
  induction n as [|n IH]; intros s pos begin acc k r q Hn H.
  - destruct s; [discriminate H | simpl in Hn; lia].
  - destruct s as [|c s1]; [discriminate H|].
    cbn [scanstring] in H.
    break_all H.
    all: cbn [List.length] in *.
    all: try (injection H as <- <- <-; lia).
    all: try (apply IH in H; cbn [List.length] in *; lia).
Qed.

Lemma skip_ws_length (s : pystr) (pos : nat) :
  List.length (fst (skip_ws s pos)) <= List.length s.
Proof.
  revert pos. induction s as [|c s IH]; intros pos; simpl; [lia|].
  destruct (is_ws c); simpl; [|lia]. specialize (IH (S pos)). lia.
Qed.

Lemma skip_ws_length' (s r : pystr) (pos q : nat) :
  skip_ws s pos = (r, q) -> List.length r <= List.length s.
Proof. intros H. pose proof (skip_ws_length s pos) as L. now rewrite H in L. Qed.

Lemma head_is_tl (c : pychar) (s : pystr) :
  head_is c s = true -> List.length s = S (List.length (tl s)).
Proof. destruct s; [discriminate|reflexivity]. Qed.

Lemma tl_length (s : pystr) : List.length (tl s) <= List.length s.
Proof. destruct s; simpl; lia. Qed.

Lemma span_digits_length (s ds r : pystr) :
  span_digits s = (ds, r) -> List.length r <= List.length s.
Proof.
  revert ds r. induction s as [|c s IH]; simpl; intros ds r H.
  - injection H as <- <-. simpl. lia.
  - destruct (is_digit c).
    + destruct (span_digits s) as [ds' r'] eqn:E. injection H as <- <-.
      specialize (IH _ _ eq_refl). lia.
    + injection H as <- <-. simpl. lia.
Qed.

Lemma scan_sign_length (s sg r : pystr) :
  scan_sign s = (sg, r) -> List.length r <= List.length s.
Proof.
  unfold scan_sign. destruct (head_is 45%N s); intros H; injection H as <- <-.
  - apply tl_length.
  - lia.
Qed.

Lemma scan_integer_length (s i r : pystr) :
  scan_integer s = Some (i, r) -> List.length r < List.length s.
Proof.
  unfold scan_integer. intros H. break_all H.
  all: injection H as <- <-; simpl.
  - match goal with E : span_digits _ = _ |- _ => apply span_digits_length in E end.
    lia.
  - lia.
Qed.

Lemma scan_frac_length (s f r : pystr) :
  scan_frac s = (f, r) -> List.length r <= List.length s.
Proof.
  unfold scan_frac. intros H. break_all H.
  all: injection H as <- <-; simpl; try lia.
  match goal with E : span_digits _ = _ |- _ => apply span_digits_length in E end. lia.
Qed.

Lemma scan_exp_sign_length (s g r : pystr) :
  scan_exp_sign s = (g, r) -> List.length r <= List.length s.
Proof.
  unfold scan_exp_sign. intros H. break_all H.
  all: injection H as <- <-; simpl; lia.
Qed.

Lemma scan_exp_length (s e r : pystr) :
  scan_exp s = (e, r) -> List.length r <= List.length s.
Proof.
  unfold scan_exp. intros H.
  destruct s as [|c s']; [injection H as <- <-; lia|].
  destruct ((c =? 101) || (c =? 69))%N; [|injection H as <- <-; lia].
  destruct (scan_exp_sign s') as [g s''] eqn:E1. apply scan_exp_sign_length in E1.
  destruct (span_digits s'') as [es r'] eqn:E2. apply span_digits_length in E2.
  destruct es; injection H as <- <-; simpl; lia.
Qed.

Lemma match_number_rest_lt (s : pystr) (pos : nat) v r q :
  match_number s pos = Scanned v r q -> List.length r < List.length s.
Proof.
  unfold match_number. intros H.
  destruct (scan_sign s) as [sg s1] eqn:E1.
  destruct (scan_integer s1) as [[i s3]|] eqn:E2; [|discriminate].
  destruct (scan_frac s3) as [f s4] eqn:E3.
  destruct (scan_exp s4) as [e s5] eqn:E4.
  cbv zeta in H.
  apply scan_sign_length in E1. apply scan_integer_length in E2.
  apply scan_frac_length in E3. apply scan_exp_length in E4.
  break_all H; injection H as _ <- _; lia.
Qed.

Lemma startswith_length (s prefix : pystr) :
  startswith s prefix = true -> List.length prefix <= List.length s.
Proof.
  revert s. induction prefix as [|p prefix IH]; intros s H; simpl; [lia|].
  destruct s as [|c s]; [discriminate|]. simpl in H.
  apply andb_prop in H as [_ H]. apply IH in H. simpl. lia.
Qed.

Lemma match_constant_some (table : list (pystr * pyobj)) (s name : pystr) v :
  match_constant table s = Some (name, v) ->
  In (name, v) table /\ startswith s name = true.
Proof.
  induction table as [|[n0 v0] table IH]; simpl; [discriminate|].
  destruct (startswith s n0) eqn:E.
  - intros H. injection H as <- <-. split; [now left|assumption].
  - intros H. destruct (IH H). split; [now right|assumption].
Qed.

Lemma constants_nonempty (name : pystr) v : In (name, v) constants -> name <> [].
Proof.
  unfold constants. simpl.
  intros [H|[H|[H|[H|[H|[H|[]]]]]]]; injection H as <- _; discriminate.
Qed.

Lemma match_constant_rest_lt (s name : pystr) v :
  match_constant constants s = Some (name, v) ->
  List.length (skipn (List.length name) s) < List.length s.
Proof.
  intros H. apply match_constant_some in H as [Hin Hs].
  apply constants_nonempty in Hin. apply startswith_length in Hs.
  rewrite length_skipn. destruct name; [congruence|]. simpl in *. lia.
Qed.

Lemma scan_map_scanned {A B} (f : A -> B) (x : scan A) b r q :
  scan_map f x = Scanned b r q -> exists a, x = Scanned a r q /\ b = f a.
Proof.
  destruct x; simpl; try discriminate. intros H. injection H as <- <- <-. eauto.
Qed.

Lemma scan_rest_lt (fuel : nat) :
  (forall depth, rest_lt (scan_once fuel depth))
  /\ (forall depth pairs,
        rest_lt (fun s pos => object_loop fuel depth s pos pairs))
  /\ (forall depth items,
        rest_lt (fun s pos => array_loop fuel depth s pos items)).
Proof.
  induction fuel as [|fuel (IHs & IHo & IHa)];
    [repeat split; intros; intros s pos v r q H; discriminate H|].
  repeat split.
  - intros depth s pos v r q H. cbn [scan_once] in H.
    destruct s as [|c s1]; [discriminate|].
    destruct (c =? 34)%N.
    { apply scan_map_scanned in H as (k & H & _).
      apply scanstring_rest_lt with (n := List.length s1) in H; simpl; lia. }
    destruct (c =? 123)%N.
    { destruct depth as [|depth]; [discriminate H|].
      destruct (skip_ws s1 (pos + 1)) as [s2 p2] eqn:E. apply skip_ws_length' in E.
      destruct (head_is 125%N s2) eqn:Hh.
      - injection H as _ <- _. pose proof (tl_length s2). simpl. lia.
      - apply IHo in H. simpl. lia. }
    destruct (c =? 91)%N.
    { destruct depth as [|depth]; [discriminate H|].
      destruct (skip_ws s1 (pos + 1)) as [s2 p2] eqn:E. apply skip_ws_length' in E.
      destruct (head_is 93%N s2) eqn:Hh.
      - injection H as _ <- _. pose proof (tl_length s2). simpl. lia.
      - apply IHa in H. simpl. lia. }
    destruct (match_constant constants (c :: s1)) as [[name value]|] eqn:E.
    + injection H as _ <- _. now apply match_constant_rest_lt in E.
    + now apply match_number_rest_lt in H.
  - intros depth pairs s pos v r q H. cbn [object_loop] in H.
    destruct (head_is 34%N s) eqn:H1; [|discriminate].
    apply head_is_tl in H1.
    destruct (scanstring (tl s) (pos + 1) pos []) as [key s2 p2| | | |] eqn:E2;
      try discriminate.
    apply scanstring_rest_lt with (n := List.length (tl s)) in E2; [|lia].
    destruct (skip_ws s2 p2) as [s3 p3] eqn:E3. apply skip_ws_length' in E3.
    destruct (head_is 58%N s3) eqn:H3; [|discriminate]. apply head_is_tl in H3.
    destruct (skip_ws (tl s3) (p3 + 1)) as [s5 p5] eqn:E5. apply skip_ws_length' in E5.
    destruct (scan_once fuel depth s5 p5) as [val s6 p6| | | |] eqn:E6;
      try discriminate.
    apply IHs in E6.
    destruct (skip_ws s6 p6) as [s7 p7] eqn:E7. apply skip_ws_length' in E7.
    destruct (head_is 125%N s7) eqn:H7.
    { injection H as _ <- _. pose proof (tl_length s7). lia. }
    destruct (head_is 44%N s7) eqn:H8; [|discriminate].
    destruct (skip_ws (tl s7) (p7 + 1)) as [s9 p9] eqn:E9. apply skip_ws_length' in E9.
    apply IHo in H. pose proof (tl_length s7). lia.
  - intros depth items s pos v r q H. cbn [array_loop] in H.
    destruct (scan_once fuel depth s pos) as [val s1 p1| | | |] eqn:E1;
      try discriminate.
    apply IHs in E1.
    destruct (skip_ws s1 p1) as [s2 p2] eqn:E2. apply skip_ws_length' in E2.
    destruct (head_is 93%N s2) eqn:H2.
    { injection H as _ <- _. pose proof (tl_length s2). lia. }
    destruct (head_is 44%N s2) eqn:H3; [|discriminate].
    destruct (skip_ws (tl s2) (p2 + 1)) as [s4 p4] eqn:E4. apply skip_ws_length' in E4.
    apply IHa in H. pose proof (tl_length s2). lia.
Qed.

(** ** Fuel: twice the length of the text, plus one, always suffices *)

Lemma scanstring_fuel s pos begin acc : scanstring s pos begin acc <> OutOfFuel.
Proof.
  remember (List.length s) as n eqn:Hn.
  assert (Hle : List.length s <= n) by lia. clear Hn.
  revert s pos begin acc Hle.
  induction n as [|n IH]; intros s pos begin acc Hn H.
  - destruct s; [discriminate H | simpl in Hn; lia].
  - destruct s as [|c s1]; [discriminate H|].
    cbn [scanstring] in H.
    break_all H.
    all: cbn [List.length] in *.
    all: try (apply IH in H; [assumption | cbn [List.length]; lia]).
Qed.

Lemma match_number_fuel s pos : match_number s pos <> OutOfFuel.
Proof.
  unfold match_number.
  destruct (scan_sign s) as [sg s1].
  destruct (scan_integer s1) as [[i s3]|]; [|discriminate].
  destruct (scan_frac s3) as [f s4]. destruct (scan_exp s4) as [e s5].
  cbv zeta. repeat break_match_goal; discriminate.
Qed.

Lemma fuel_enough (fuel : nat) :
  (forall depth s pos,
      2 * List.length s < fuel -> scan_once fuel depth s pos <> OutOfFuel)
  /\ (forall depth pairs s pos, 2 * List.length s + 1 < fuel ->
        object_loop fuel depth s pos pairs <> OutOfFuel)
  /\ (forall depth items s pos, 2 * List.length s + 1 < fuel ->
        array_loop fuel depth s pos items <> OutOfFuel).
Proof.
  induction fuel as [|fuel (IHs & IHo & IHa)]; [repeat split; intros; lia|].
  destruct (scan_rest_lt fuel) as (Ls & _ & _).
  repeat split.
  - intros depth s pos Hf. cbn [scan_once].
    destruct s as [|c s1]; [discriminate|]. cbn [List.length] in Hf.
    destruct (c =? 34)%N.
    { pose proof (scanstring_fuel s1 (pos + 1) pos []).
      destruct (scanstring s1 (pos + 1) pos []); simpl; congruence. }
    destruct (c =? 123)%N.
    { destruct depth as [|depth]; [discriminate|].
      destruct (skip_ws s1 (pos + 1)) as [s2 p2] eqn:E. apply skip_ws_length' in E.
      destruct (head_is 125%N s2); [discriminate|]. apply IHo. lia. }
    destruct (c =? 91)%N.
    { destruct depth as [|depth]; [discriminate|].
      destruct (skip_ws s1 (pos + 1)) as [s2 p2] eqn:E. apply skip_ws_length' in E.
      destruct (head_is 93%N s2); [discriminate|]. apply IHa. lia. }
    destruct (match_constant constants (c :: s1)) as [[name value]|];
      [discriminate | apply match_number_fuel].
  - intros depth pairs s pos Hf. cbn [object_loop].
    destruct (head_is 34%N s) eqn:H1; [|discriminate]. apply head_is_tl in H1.
    pose proof (scanstring_fuel (tl s) (pos + 1) pos []) as Hk.
    destruct (scanstring (tl s) (pos + 1) pos []) as [key s2 p2| | | |] eqn:E2;
      try discriminate; [|congruence].
    apply scanstring_rest_lt with (n := List.length (tl s)) in E2; [|lia].
    destruct (skip_ws s2 p2) as [s3 p3] eqn:E3. apply skip_ws_length' in E3.
    destruct (head_is 58%N s3) eqn:H3; [|discriminate]. apply head_is_tl in H3.
    destruct (skip_ws (tl s3) (p3 + 1)) as [s5 p5] eqn:E5. apply skip_ws_length' in E5.
    assert (Hv : scan_once fuel depth s5 p5 <> OutOfFuel) by (apply IHs; lia).
    destruct (scan_once fuel depth s5 p5) as [val s6 p6| | | |] eqn:E6;
      try discriminate; [|congruence].
    apply Ls in E6.
    destruct (skip_ws s6 p6) as [s7 p7] eqn:E7. apply skip_ws_length' in E7.
    destruct (head_is 125%N s7); [discriminate|].
    destruct (head_is 44%N s7); [|discriminate].
    destruct (skip_ws (tl s7) (p7 + 1)) as [s9 p9] eqn:E9. apply skip_ws_length' in E9.
    apply IHo. pose proof (tl_length s7). lia.
  - intros depth items s pos Hf. cbn [array_loop].
    assert (Hv : scan_once fuel depth s pos <> OutOfFuel) by (apply IHs; lia).
    destruct (scan_once fuel depth s pos) as [val s1 p1| | | |] eqn:E1;
      try discriminate; [|congruence].
    apply Ls in E1.
    destruct (skip_ws s1 p1) as [s2 p2] eqn:E2. apply skip_ws_length' in E2.
    destruct (head_is 93%N s2); [discriminate|].
    destruct (head_is 44%N s2); [|discriminate].
    destruct (skip_ws (tl s2) (p2 + 1)) as [s4 p4] eqn:E4. apply skip_ws_length' in E4.
    apply IHa. pose proof (tl_length s2). lia.
Qed.

(** ** More fuel never changes a result *)

Lemma fuel_step (fuel : nat) :
  (forall depth s pos, scan_once fuel depth s pos <> OutOfFuel ->
     scan_once (S fuel) depth s pos = scan_once fuel depth s pos)
  /\ (forall depth pairs s pos, object_loop fuel depth s pos pairs <> OutOfFuel ->
        object_loop (S fuel) depth s pos pairs = object_loop fuel depth s pos pairs)
  /\ (forall depth items s pos, array_loop fuel depth s pos items <> OutOfFuel ->
        array_loop (S fuel) depth s pos items = array_loop fuel depth s pos items).
Proof.
  induction fuel as [|fuel (IHs & IHo & IHa)]; [repeat split; intros; simpl in *; congruence|].
  repeat split.
  - intros depth s pos H. set (f1 := S fuel) at 1.
    cbn [scan_once] in H |- *. subst f1.
    destruct s as [|c s1]; [reflexivity|].
    destruct (c =? 34)%N; [reflexivity|].
    destruct (c =? 123)%N.
    { destruct depth as [|depth]; [reflexivity|].
      destruct (skip_ws s1 (pos + 1)) as [s2 p2].
      destruct (head_is 125%N s2); [reflexivity|]. now apply IHo. }
    destruct (c =? 91)%N.
    { destruct depth as [|depth]; [reflexivity|].
      destruct (skip_ws s1 (pos + 1)) as [s2 p2].
      destruct (head_is 93%N s2); [reflexivity|]. now apply IHa. }
    reflexivity.
  - intros depth pairs s pos H. set (f1 := S fuel) at 1.
    cbn [object_loop] in H |- *. subst f1.
    destruct (head_is 34%N s); [|reflexivity].
    destruct (scanstring (tl s) (pos + 1) pos []) as [key s2 p2| | | |]; try reflexivity.
    destruct (skip_ws s2 p2) as [s3 p3].
    destruct (head_is 58%N s3); [|reflexivity].
    destruct (skip_ws (tl s3) (p3 + 1)) as [s5 p5].
    rewrite (IHs depth s5 p5) by (intros E; rewrite E in H; congruence).
    destruct (scan_once fuel depth s5 p5) as [val s6 p6| | | |]; try reflexivity.
    destruct (skip_ws s6 p6) as [s7 p7].
    destruct (head_is 125%N s7); [reflexivity|].
    destruct (head_is 44%N s7); [|reflexivity].
    destruct (skip_ws (tl s7) (p7 + 1)) as [s9 p9]. now apply IHo.
  - intros depth items s pos H. set (f1 := S fuel) at 1.
    cbn [array_loop] in H |- *. subst f1.
    rewrite (IHs depth s pos) by (intros E; rewrite E in H; congruence).
    destruct (scan_once fuel depth s pos) as [val s1 p1| | | |]; try reflexivity.
    destruct (skip_ws s1 p1) as [s2 p2].
    destruct (head_is 93%N s2); [reflexivity|].
    destruct (head_is 44%N s2); [|reflexivity].
    destruct (skip_ws (tl s2) (p2 + 1)) as [s4 p4]. now apply IHa.
Qed.

Lemma fuel_mono (f f' depth : nat) s pos :
  f <= f' -> scan_once f depth s pos <> OutOfFuel ->
  scan_once f' depth s pos = scan_once f depth s pos.
Proof.
  induction 1 as [|f' Hle IH]; intros H; [reflexivity|].
  rewrite <- (IH H). apply (proj1 (fuel_step f')). rewrite (IH H). exact H.
Qed.

(** A successful scan is the same under any sufficient fuel. *)
Lemma fuel_irrelevant (f f' depth : nat) s pos v r q :
  scan_once f depth s pos = Scanned v r q ->
  2 * List.length s < f' ->
  scan_once f' depth s pos = Scanned v r q.
Proof.
  intros H Hf'. destruct (Nat.le_ge_cases f f') as [Hle|Hge].
  - rewrite (fuel_mono f f' depth s pos Hle); [exact H | rewrite H; discriminate].
  - pose proof (proj1 (fuel_enough f') depth s pos Hf') as Hne.
    rewrite <- (fuel_mono f' f depth s pos Hge Hne). exact H.
Qed.

(** ** A trailing space is never part of a value *)


























(** ** Positions only label the results *)






(** ** [loads] of a document is [loads] of the document stripped *)

(** Every value starts with one of a few ASCII characters. *)
Lemma scan_once_first fuel depth c s pos v r q :
  scan_once fuel depth (c :: s) pos = Scanned v r q -> value_start c = true.
Proof.
  destruct fuel as [|fuel]; [discriminate|]. cbn [scan_once]. intros H.
  unfold value_start.
  destruct (c =? 34)%N; [reflexivity|].
  destruct (c =? 123)%N; [reflexivity|].
  destruct (c =? 91)%N; [reflexivity|].
  destruct (match_constant constants (c :: s)) as [[name value]|] eqn:E.
  - apply match_constant_some in E as [Hin Hs].
    unfold constants in Hin. simpl in Hin.
    destruct Hin as [Hin|[Hin|[Hin|[Hin|[Hin|[Hin|[]]]]]]];
      injection Hin as <- _; cbn in Hs;
      apply andb_prop in Hs as [Hs _]; rewrite Hs;
      rewrite ?orb_true_r; reflexivity.
  - unfold match_number, scan_sign in H. cbn [head_is tl] in H.
    destruct (c =? 45)%N; [now rewrite ?orb_true_r|].
    unfold scan_integer in H. unfold is_digit.
    destruct ((49 <=? c) && (c <=? 57))%N eqn:E5.
    { apply andb_prop in E5 as [A B]. apply N.leb_le in A.
      rewrite B, andb_true_r. replace (48 <=? c)%N with true
        by (symmetry; apply N.leb_le; lia).
      now rewrite ?orb_true_r. }
    destruct (c =? 48)%N eqn:E6; [|discriminate H].
    apply N.eqb_eq in E6. subst c. reflexivity.
Qed.


Lemma value_start_not_backtick (c : pychar) :
  value_start c = true -> (c =? 96)%N = false.
Proof.
  unfold value_start, is_digit. intros H. apply N.eqb_neq. intros ->.
  discriminate H.
Qed.


Lemma is_ws_isspace (c : pychar) : is_ws c = true -> isspace c = true.
Proof.
  unfold is_ws. intros H.
  repeat (apply orb_prop in H as [H|H]); apply N.eqb_eq in H; now subst c.
Qed.


Lemma skip_ws_all (r : pystr) (q : nat) :
  all_ws r <-> fst (skip_ws r q) = [].
Proof.
  revert q. induction r as [|c r IH]; intros q; simpl.
  - split; [reflexivity | constructor].
  - destruct (is_ws c) eqn:E.
    + rewrite <- IH. split; [now inversion 1 | now constructor].
    + split; [inversion 1; congruence | discriminate].
Qed.



Lemma skip_ws_id (c : pychar) (s : pystr) (pos : nat) :
  isspace c = false -> skip_ws (c :: s) pos = (c :: s, pos).
Proof.
  intros H. simpl. destruct (is_ws c) eqn:E; [|reflexivity].
  apply is_ws_isspace in E. congruence.
Qed.


(** The fuel [loads] gives the scanner is never used up, so the last
    case of [loads] does not arise. *)
Lemma loads_fuel (depth : nat) (s : pystr) :
  scan_once (S (2 * List.length s)) depth (fst (skip_ws s 0))
            (snd (skip_ws s 0))
  <> OutOfFuel.
Proof.
  apply (proj1 (fuel_enough _)).
  pose proof (skip_ws_length s 0). lia.
Qed.

(** ** What the decoder raises *)






(** The decoder at work. *)
Example loads_receipt :
  loads Scenario.headroom Scenario.coffee = Return Scenario.coffee_object.
Proof. vm_compute. reflexivity. Qed.

Example loads_duplicate_keys :
  loads Scenario.headroom (pyq "{'a': 1, 'b': [true, null], 'a': -2.5e3}")
  = Return (PyDict [(py "a", PyFloat (py "-2.5e3"));
                    (py "b", PyList [PyBool true; PyNone])]).
Proof. vm_compute. reflexivity. Qed.

Example loads_surrogate_pair :
  loads Scenario.headroom (pyq "'\ud83d\ude00\n'")
  = Return (PyStr [128512%N; 10%N]).
Proof. vm_compute. reflexivity. Qed.

Example loads_trailing_comma :
  loads Scenario.headroom (py "[1,]")
  = Raise (mkExn JSONDecodeError (py "Expecting value: line 1 column 4 (char 3)")).
Proof. vm_compute. reflexivity. Qed.

Example loads_second_line :
  loads Scenario.headroom (py "{" ++ NL :: pyq "'a' 1}")
  = Raise (mkExn JSONDecodeError
                 (py "Expecting ':' delimiter: line 2 column 5 (char 6)")).
Proof. vm_compute. reflexivity. Qed.

Example loads_prose :
  loads Scenario.headroom Scenario.apology
  = Raise (mkExn JSONDecodeError (py "Expecting value: line 1 column 1 (char 0)")).
Proof. vm_compute. reflexivity. Qed.

(** An integer of 4300 digits is read, one of 4301 is refused by [int];
    with a fraction the same digits are a [float]. *)
Example loads_longest_integer :
  loads Scenario.headroom (repeat 49%N 4300)
  = Return (PyInt (int_of_digits (repeat 49%N 4300))).
Proof. vm_compute. reflexivity. Qed.

Example loads_long_integer :
  loads Scenario.headroom Scenario.long_integer
  = Raise (mkExn ValueError (py "Exceeds the limit (4300 digits) for integer string conversion: value has 4301 digits; use sys.set_int_max_str_digits() to increase the limit")).
Proof. vm_compute. reflexivity. Qed.

Example loads_long_float :
  loads Scenario.headroom (repeat 49%N 4301 ++ py ".5")
  = Return (PyFloat (repeat 49%N 4301 ++ py ".5")).
Proof. vm_compute. reflexivity. Qed.

(** As many arrays one inside the other as there is room for are read;
    one more is refused, closed or not. *)
Example loads_deepest :
  loads 3 (py "[[[]]]") = Return (PyList [PyList [PyList []]])
  /\ loads 3 (py "[[[[]]]]")
     = Raise (mkExn RecursionError (py "maximum recursion depth exceeded while decoding a JSON array from a unicode string"))
  /\ loads 3 (pyq "[[[{'a': 1}]]]")
     = Raise (mkExn RecursionError (py "maximum recursion depth exceeded while decoding a JSON object from a unicode string")).
Proof. vm_compute. repeat split; reflexivity. Qed.

Example loads_deep_nesting :
  loads Scenario.headroom Scenario.deep_nesting
  = Raise (mkExn RecursionError (py "maximum recursion depth exceeded while decoding a JSON array from a unicode string")).
Proof. vm_compute. reflexivity. Qed.

End JsonFacts.

(* ================================================================== *)
(** * Facts about the service *)
(* ================================================================== *)

Module GeminiFacts.
Import Gemini Further.

Lemma extend_extend (w : World) (a b : list event) :
  extend (extend w a) b = extend w (a ++ b).
Proof. unfold extend. simpl. now rewrite app_assoc. Qed.

Lemma upstream_calls_app (a b : list event) :
  upstream_calls (a ++ b) = upstream_calls a + upstream_calls b.
Proof.
  induction a as [|ev a IH]; [reflexivity|].
  destruct ev; simpl; rewrite IH; reflexivity.
Qed.

Lemma strip_fences_fenced (t : pystr) :
  startswith (strip t) fence = true ->
  strip_fences t = drop_first_and_last_line (strip t).
Proof.
  intros H. unfold strip_fences. rewrite H. apply StrFacts.join_middle_lines.
Qed.

Lemma strip_fences_plain (t : pystr) :
  startswith (strip t) fence = false -> strip_fences t = strip t.
Proof. intros H. unfold strip_fences. now rewrite H. Qed.


(** The empty text is no JSON document. *)
Lemma loads_empty (d : nat) :
  Json.loads d [] = Raise (Json.decode_error "Expecting value" [] 0).
Proof. reflexivity. Qed.

Section Service.

Variable Image_verify : bytes -> option exn.
Variable generate_content : pystr -> pystr -> pystr -> bytes -> pystr -> reply.
Variable recursion_headroom : nat.

(** [parse_receipt] in one piece: a failed image check ends the call
    after one outside call; otherwise the model is called once. *)
Lemma parse_receipt_run (self : GeminiService) (data : bytes) (ct : pystr)
      (w : World) :
  parse_receipt Image_verify generate_content recursion_headroom
                self data ct w =
  match Image_verify data with
  | Some e => (Raise (invalid_image e), extend w [EvImageVerify data])
  | None =>
      (after_reply recursion_headroom
                   (generate_content (client self) (model_name self)
                                     prompt data ct),
       extend w [EvImageVerify data; upstream_call self data ct])
  end.
Proof.
  unfold parse_receipt, try_except, bind, emit, raise, ret, lift, upstream_call.
  destruct (Image_verify data) as [e|]; [reflexivity|].
  rewrite extend_extend. cbn [app].
  unfold after_reply, response_text, raise, ret.
  destruct (generate_content _ _ _ _ _) as [t| |e]; try reflexivity.
  destruct (normalize_response recursion_headroom t); reflexivity.
Qed.


(** C3: when the image check raises, [parse_receipt] raises a
    [ValueError] whose message is "Invalid image file: " followed by the
    checker's reason, and the model is not called. *)
Theorem invalid_image_raises (self : GeminiService) (data : bytes)
        (ct : pystr) (w : World) (e : exn) :
  Image_verify data = Some e ->
  parse_receipt Image_verify generate_content recursion_headroom
                self data ct w
  = (Raise (mkExn ValueError (py "Invalid image file: " ++ exc_str e)),
     extend w [EvImageVerify data])
  /\ upstream_calls
       (trace (snd (parse_receipt Image_verify generate_content
                                  recursion_headroom self data ct w)))
     = upstream_calls (trace w).
Proof.
  intros Himg. rewrite parse_receipt_run, Himg. split; [reflexivity|].
  cbn [snd trace extend]. rewrite upstream_calls_app. simpl. lia.
Qed.

(** C9: a trimmed text that starts with three backticks always loses
    its first and its last line, closing fence or not: with three lines
    or more what is parsed is what lies between them, with two lines
    nothing is left, and with a single line nothing is left either, so
    that the decoder fails on the empty text and [parse_receipt] raises
    the malformed-response [ValueError]. *)
Theorem unclosed_fence_drops_last_line :
  (forall t first mid last,
      strip t = first ++ NL :: mid ++ NL :: last ->
      ~ In NL first -> ~ In NL last ->
      startswith (strip t) fence = true ->
      strip_fences t = mid)
  /\ (forall t first last,
        strip t = first ++ NL :: last ->
        ~ In NL first -> ~ In NL last ->
        startswith (strip t) fence = true ->
        strip_fences t = [])
  /\ (forall t,
        ~ In NL (strip t) ->
        startswith (strip t) fence = true ->
        strip_fences t = []
        /\ normalize_response recursion_headroom t
           = Raise (Json.decode_error "Expecting value" [] 0)
        /\ forall self data ct w,
            Image_verify data = None ->
            generate_content (client self) (model_name self) prompt data ct
            = ReplyText t ->
            fst (parse_receipt Image_verify generate_content
                               recursion_headroom self data ct w)
            = Raise (mkExn ValueError
                (py "Failed to parse Gemini response as JSON: Expecting value: line 1 column 1 (char 0)"))).
Proof.
  split; [|split].
  - intros t first mid last Hs Hf Hl Hfence.
    rewrite (strip_fences_fenced t Hfence), Hs.
    now apply StrFacts.drop_lines_three.
  - intros t first last Hs Hf Hl Hfence.
    rewrite (strip_fences_fenced t Hfence), Hs.
    now apply StrFacts.drop_lines_two.
  - intros t Hn Hfence.
    assert (E : strip_fences t = []).
    { rewrite (strip_fences_fenced t Hfence). now apply StrFacts.drop_lines_one. }
    split; [exact E|]. split.
    + unfold normalize_response. now rewrite E.
    + intros self data ct w Himg Hgen.
      rewrite parse_receipt_run, Himg, Hgen.
      unfold after_reply, normalize_response. now rewrite E.
Qed.

End Service.


(** C10: the key handed to the API client is the configured one when
    that is not empty, whatever the environment holds; with an empty
    configured key it is the value of the environment variable
    GEMINI_API_KEY when the variable is set, and the empty string when
    it is not. *)
Theorem api_key_fallback (genai_Client : pystr -> option exn) (w : World) :
  exists key,
    snd (init genai_Client w) = extend w [EvClientInit key]
    /\ (genai_Client key = None ->
        fst (init genai_Client w)
        = Return {| client := key; model_name := py "gemini-2.5-flash" |})
    /\ (Config.gemini_api_key (settings w) <> [] ->
        key = Config.gemini_api_key (settings w))
    /\ (Config.gemini_api_key (settings w) = [] ->
        forall before v after,
          os_environ w = before ++ (py "GEMINI_API_KEY", v) :: after ->
          (forall v', ~ In (py "GEMINI_API_KEY", v') before) ->
          key = v)
    /\ (Config.gemini_api_key (settings w) = [] ->
        (forall v, ~ In (py "GEMINI_API_KEY", v) (os_environ w)) ->
        key = []).
Proof.
  exists (resolve_api_key (settings w) (os_environ w)).
  unfold init, bind, get_world, emit, raise, ret, resolve_api_key.
  repeat split.
  - now destruct (genai_Client _).
  - intros H. now rewrite H.
  - intros H. destruct (Config.gemini_api_key (settings w)); [congruence|reflexivity].
  - intros H before v after Henv Hb. rewrite H, Henv. cbn [or_else].
    clear Henv. induction before as [|[k x] before IH]; cbn [environ_get app].
    + now rewrite StrFacts.str_eqb_refl.
    + destruct (str_eqb k (py "GEMINI_API_KEY")) eqn:E.
      * apply StrFacts.str_eqb_eq in E. subst k.
        exfalso. apply (Hb x). now left.
      * apply IH. intros v' Hin. apply (Hb v'). now right.
  - intros H Habs. rewrite H. cbn [or_else].
    induction (os_environ w) as [|[k x] env IH]; [reflexivity|].
    cbn [environ_get].
    destruct (str_eqb k (py "GEMINI_API_KEY")) eqn:E.
    + apply StrFacts.str_eqb_eq in E. subst k.
      exfalso. apply (Habs x). now left.
    + apply IH. intros v Hin. apply (Habs v). now right.
Qed.




Lemma invalid_image_raises_witness :
  parse_receipt Scenario.image_bad (Scenario.model_says Scenario.coffee)
                Scenario.headroom
                Scenario.service Scenario.png (py "image/png") Scenario.world
  = (Raise (mkExn ValueError (py "Invalid image file: cannot identify image file")),
     extend Scenario.world [EvImageVerify Scenario.png])
  /\ upstream_calls
       (trace (snd (parse_receipt Scenario.image_bad
                      (Scenario.model_says Scenario.coffee)
                      Scenario.headroom
                      Scenario.service Scenario.png (py "image/png")
                      Scenario.world)))
     = upstream_calls (trace Scenario.world).
Proof.
  apply (invalid_image_raises Scenario.image_bad
           (Scenario.model_says Scenario.coffee) Scenario.headroom
           Scenario.service Scenario.png (py "image/png") Scenario.world
           (mkExn Exception (py "cannot identify image file"))).
  reflexivity.
Defined.

(** A fenced answer that was cut short after its only content line
    loses that line, and a lone fence line leaves nothing to parse. *)
Lemma unclosed_fence_witness :
  strip_fences Scenario.unclosed_fence = pyq "{'items':[]}"
  /\ strip_fences (py "```json" ++ NL :: Scenario.coffee) = []
  /\ fst (parse_receipt Scenario.image_ok (Scenario.model_says (py "```json"))
                        Scenario.headroom
                        Scenario.service Scenario.png (py "image/png")
                        Scenario.world)
     = Raise (mkExn ValueError
         (py "Failed to parse Gemini response as JSON: Expecting value: line 1 column 1 (char 0)")).
Proof.
  destruct (unclosed_fence_drops_last_line Scenario.image_ok
              (Scenario.model_says (py "```json")) Scenario.headroom)
    as (H1 & H2 & H3).
  split; [|split].
  - apply (H1 Scenario.unclosed_fence (py "```json") (pyq "{'items':[]}")
              (pyq "{'total': 1}")).
    + vm_compute. reflexivity.
    + apply StrFacts.no_line_feed. vm_compute. reflexivity.
    + apply StrFacts.no_line_feed. vm_compute. reflexivity.
    + vm_compute. reflexivity.
  - apply (H2 _ (py "```json") Scenario.coffee).
    + vm_compute. reflexivity.
    + apply StrFacts.no_line_feed. vm_compute. reflexivity.
    + apply StrFacts.no_line_feed. vm_compute. reflexivity.
    + vm_compute. reflexivity.
  - apply (H3 (py "```json")).
    + apply StrFacts.no_line_feed. vm_compute. reflexivity.
    + vm_compute. reflexivity.
    + reflexivity.
    + reflexivity.
Defined.

(** With no key in the settings, the key comes from the environment. *)
Lemma api_key_fallback_witness :
  exists key,
    snd (init Scenario.client_ok Scenario.world)
    = extend Scenario.world [EvClientInit key]
    /\ key = py "k-123".
Proof.
  destruct (api_key_fallback Scenario.client_ok Scenario.world)
    as (key & Hs & _ & _ & Hpresent & _).
  exists key. split; [exact Hs|].
  apply (Hpresent eq_refl [(py "PATH", py "/usr/bin")] (py "k-123") []).
  - reflexivity.
  - intros v' [H|[]]. vm_compute in H. discriminate H.
Defined.

End GeminiFacts.

(* ================================================================== *)
(** * Facts about the endpoint *)
(* ================================================================== *)

Module ReceiptsFacts.
Import Gemini Receipts.

Lemma in_allowed_spec (ct : option pystr) :
  in_allowed ct = true <->
  ct = Some (py "image/jpeg") \/ ct = Some (py "image/png")
  \/ ct = Some (py "image/webp") \/ ct = Some (py "image/heic").
Proof.
  destruct ct as [t|]; unfold in_allowed.
  - unfold allowed_types. cbn [existsb]. rewrite orb_false_r, !orb_true_iff.
    rewrite !StrFacts.str_eqb_eq.
    split.
    + intros [H|[H|[H|H]]]; subst t; auto.
    + intros [H|[H|[H|H]]]; injection H as ->; auto.
  - split; [discriminate|]. intros [H|[H|[H|H]]]; discriminate H.
Qed.

Section Endpoint.

Variable Image_verify : bytes -> option exn.
Variable genai_Client : pystr -> option exn.
Variable generate_content :
  pystr -> pystr -> pystr -> bytes -> pystr -> reply.
Variable recursion_headroom : nat.

(** Short names for the endpoint and its [try] block over these three. *)
Local Abbreviation scan :=
  (scan_receipt Image_verify genai_Client generate_content
                recursion_headroom).
Local Abbreviation try_block :=
  (process Image_verify genai_Client generate_content recursion_headroom).

(** The [try] block in one piece: the body is read, the client is built
    with the resolved key, and the service is called. *)
Lemma process_run (file : UploadFile) (ct : pystr) (w : World) :
  try_block file ct w =
  let key := resolve_api_key (settings w) (os_environ w) in
  let self := {| client := key; model_name := py "gemini-2.5-flash" |} in
  match genai_Client key with
  | Some e => (Raise e, extend w [EvFileRead; EvClientInit key])
  | None =>
      match Image_verify (contents file) with
      | Some e =>
          (Raise (invalid_image e),
           extend w [EvFileRead; EvClientInit key; EvImageVerify (contents file)])
      | None =>
          (after_reply recursion_headroom
                       (generate_content key (py "gemini-2.5-flash") prompt
                                         (contents file) ct),
           extend w [EvFileRead; EvClientInit key; EvImageVerify (contents file);
                     upstream_call self (contents file) ct])
      end
  end.
Proof.
  unfold process, init, bind, emit, get_world, raise, ret.
  cbn [settings os_environ extend].
  rewrite !GeminiFacts.extend_extend. cbn [app].
  destruct (genai_Client _) as [e|]; [reflexivity|].
  rewrite GeminiFacts.parse_receipt_run. cbn [client model_name].
  destruct (Image_verify (contents file)) as [e|].
  - now rewrite GeminiFacts.extend_extend.
  - rewrite GeminiFacts.extend_extend. cbn [app].
    destruct (after_reply recursion_headroom _); reflexivity.
Qed.

Lemma scan_allowed (file : UploadFile) (ct : pystr) (w : World) :
  content_type file = Some ct ->
  in_allowed (Some ct) = true ->
  scan file w =
  (match fst (try_block file ct w) with
   | Return v => Ok200 v
   | Raise e => on_exception e
   end, snd (try_block file ct w)).
Proof.
  intros Hct Hin. unfold scan_receipt. rewrite Hct, Hin. cbn [negb].
  destruct (process _ _ _ _ file ct w) as [[v|e] w']; reflexivity.
Qed.

Lemma scan_rejected (file : UploadFile) (w : World) :
  in_allowed (content_type file) = false ->
  scan file w = (invalid_file_type, w).
Proof.
  intros H. unfold scan_receipt.
  destruct (content_type file) as [ct|]; [|reflexivity]. now rewrite H.
Qed.

(** The endpoint only ever adds to the trace. *)
Lemma scan_extends (file : UploadFile) (w : World) :
  exists evs, snd (scan file w) = extend w evs.
Proof.
  destruct (in_allowed (content_type file)) eqn:Hin.
  - destruct (content_type file) as [ct|] eqn:Hct; [|discriminate Hin].
    rewrite (scan_allowed file ct w Hct Hin), process_run. cbn zeta.
    destruct (genai_Client _); [eexists; reflexivity|].
    destruct (Image_verify _); eexists; reflexivity.
  - rewrite (scan_rejected file w Hin). exists []. unfold extend.
    rewrite app_nil_r. now destruct w.
Qed.

(** The response is a function of the request, the environment and the
    settings; the trace plays no part in it. *)
Lemma scan_response_world (file : UploadFile) (w1 w2 : World) :
  os_environ w1 = os_environ w2 -> settings w1 = settings w2 ->
  fst (scan file w1) = fst (scan file w2).
Proof.
  intros He Hs.
  destruct (in_allowed (content_type file)) eqn:Hin.
  - destruct (content_type file) as [ct|] eqn:Hct; [|discriminate Hin].
    rewrite !(scan_allowed file ct _ Hct Hin), !process_run. cbn zeta.
    rewrite He, Hs. cbn [fst].
    destruct (genai_Client _); [reflexivity|].
    destruct (Image_verify _); reflexivity.
  - now rewrite !(scan_rejected file _ Hin).
Qed.

(** C4: a request whose declared content type is not one of image/jpeg,
    image/png, image/webp and image/heic is answered with a 400 and
    nothing is read or called; the test is on the declared type alone,
    and a request that declares one of the four goes on to have its
    body read. *)
Theorem content_type_gate :
  (forall file w,
      in_allowed (content_type file) = false ->
      scan_receipt Image_verify genai_Client generate_content
                   recursion_headroom file w
      = (HTTPException 400
           (py "Invalid file type. Allowed types: image/jpeg, image/png, image/webp, image/heic"),
         w))
  /\ (forall ct,
        in_allowed ct = true <->
        ct = Some (py "image/jpeg") \/ ct = Some (py "image/png")
        \/ ct = Some (py "image/webp") \/ ct = Some (py "image/heic"))
  /\ (forall file w,
        in_allowed (content_type file) = true ->
        exists evs, snd (scan_receipt Image_verify genai_Client generate_content
                                      recursion_headroom file w) = extend w (EvFileRead :: evs)).
Proof.
  split; [|split].
  - intros file w H. now rewrite (scan_rejected file w H).
  - exact in_allowed_spec.
  - intros file w Hin.
    destruct (content_type file) as [ct|] eqn:Hct; [|discriminate Hin].
    rewrite (scan_allowed file ct w Hct Hin), process_run. cbn zeta.
    destruct (genai_Client _); [eexists; reflexivity|].
    destruct (Image_verify _); eexists; reflexivity.
Qed.

(** C5 (amended): an exception that leaves the [try] block becomes a
    400 carrying its message when it is a [ValueError], and a 500
    carrying "Failed to process receipt: " and its message otherwise;
    its class alone decides.  The 400 is therefore the answer to an
    undecodable image and to a model text the decoder rejects as JSON,
    and also to a [ValueError] raised while the client is built and to
    a [JSONDecodeError] raised by the model call itself, which
    [parse_receipt] reports like a malformed text.  The 500 is the
    answer to any other exception of the constructor or of the model
    call, to a response without text, and to a text on which the
    decoder fails without a [JSONDecodeError].  Every failure of
    [parse_receipt] is of one of three kinds, told apart by the start
    of its message: "Invalid image file: " and "Failed to parse Gemini
    response as JSON: ", both answered with 400, and "Gemini API
    error: ", answered with 500; the three get different responses. *)
Theorem exception_mapping :
  (forall file ct w e w',
      content_type file = Some ct -> in_allowed (Some ct) = true ->
      process Image_verify genai_Client generate_content recursion_headroom
              file ct w = (Raise e, w') ->
      scan_receipt Image_verify genai_Client generate_content
                   recursion_headroom file w = (on_exception e, w'))
  /\ (forall e, is_ValueError (exc_cls e) = true ->
        on_exception e = HTTPException 400 (exc_str e))
  /\ (forall e, is_ValueError (exc_cls e) = false ->
        on_exception e
        = HTTPException 500 (py "Failed to process receipt: " ++ exc_str e))
  /\ (forall file ct w e,
        content_type file = Some ct -> in_allowed (Some ct) = true ->
        genai_Client (resolve_api_key (settings w) (os_environ w)) = Some e ->
        fst (scan_receipt Image_verify genai_Client generate_content
                          recursion_headroom file w)
        = on_exception e)
  /\ (forall file ct w,
        content_type file = Some ct -> in_allowed (Some ct) = true ->
        let key := resolve_api_key (settings w) (os_environ w) in
        genai_Client key = None ->
        (forall e,
            Image_verify (contents file) = Some e ->
            fst (scan_receipt Image_verify genai_Client generate_content
                              recursion_headroom file w)
            = HTTPException 400 (py "Invalid image file: " ++ exc_str e))
        /\ (forall t e,
              Image_verify (contents file) = None ->
              generate_content key (py "gemini-2.5-flash") prompt
                               (contents file) ct = ReplyText t ->
              normalize_response recursion_headroom t = Raise e ->
              fst (scan_receipt Image_verify genai_Client generate_content
                                recursion_headroom file w)
              = if is_JSONDecodeError (exc_cls e)
                then HTTPException 400
                       (py "Failed to parse Gemini response as JSON: "
                        ++ exc_str e)
                else HTTPException 500
                       (py "Failed to process receipt: Gemini API error: "
                        ++ exc_str e))
        /\ (forall e,
              Image_verify (contents file) = None ->
              generate_content key (py "gemini-2.5-flash") prompt
                               (contents file) ct = ReplyRaise e ->
              fst (scan_receipt Image_verify genai_Client generate_content
                                recursion_headroom file w)
              = if is_JSONDecodeError (exc_cls e)
                then HTTPException 400
                       (py "Failed to parse Gemini response as JSON: "
                        ++ exc_str e)
                else HTTPException 500
                       (py "Failed to process receipt: Gemini API error: "
                        ++ exc_str e))
        /\ (Image_verify (contents file) = None ->
            generate_content key (py "gemini-2.5-flash") prompt
                             (contents file) ct = ReplyNoText ->
            fst (scan_receipt Image_verify genai_Client generate_content
                              recursion_headroom file w)
            = HTTPException 500
                (py "Failed to process receipt: Gemini API error: 'NoneType' object has no attribute 'strip'")))
  /\ (forall self data ct w e w',
        parse_receipt Image_verify generate_content recursion_headroom
                      self data ct w
        = (Raise e, w') ->
        (exists e0,
            Image_verify data = Some e0 /\ e = invalid_image e0
            /\ on_exception e
               = HTTPException 400 (py "Invalid image file: " ++ exc_str e0))
        \/ (exists e1,
              is_JSONDecodeError (exc_cls e1) = true /\ e = reraise e1
              /\ on_exception e
                 = HTTPException 400
                     (py "Failed to parse Gemini response as JSON: "
                      ++ exc_str e1))
        \/ (exists e1,
              is_JSONDecodeError (exc_cls e1) = false /\ e = reraise e1
              /\ on_exception e
                 = HTTPException 500
                     (py "Failed to process receipt: Gemini API error: "
                      ++ exc_str e1)))
  /\ (forall a b c,
        is_JSONDecodeError (exc_cls b) = true ->
        is_JSONDecodeError (exc_cls c) = false ->
        invalid_image a <> reraise b
        /\ invalid_image a <> reraise c
        /\ reraise b <> reraise c
        /\ on_exception (invalid_image a) <> on_exception (reraise b)
        /\ on_exception (invalid_image a) <> on_exception (reraise c)
        /\ on_exception (reraise b) <> on_exception (reraise c)).
Proof.
  assert (Hv : forall e1, is_JSONDecodeError (exc_cls e1) = true ->
                 on_exception (reraise e1)
                 = HTTPException 400
                     (py "Failed to parse Gemini response as JSON: "
                      ++ exc_str e1))
    by (intros e1 E; unfold reraise; now rewrite E).
  assert (Hr : forall e1, is_JSONDecodeError (exc_cls e1) = false ->
                 on_exception (reraise e1)
                 = HTTPException 500
                     (py "Failed to process receipt: Gemini API error: "
                      ++ exc_str e1))
    by (intros e1 E; unfold reraise; now rewrite E).
  assert (Hb : forall e1,
             on_exception (reraise e1)
             = if is_JSONDecodeError (exc_cls e1)
               then HTTPException 400
                      (py "Failed to parse Gemini response as JSON: "
                       ++ exc_str e1)
               else HTTPException 500
                      (py "Failed to process receipt: Gemini API error: "
                       ++ exc_str e1))
    by (intros e1; destruct (is_JSONDecodeError (exc_cls e1)) eqn:E; auto).
  split; [|split; [|split; [|split; [|split; [|split]]]]].
  - intros file ct w e w' Hct Hin Hrun.
    rewrite (scan_allowed file ct w Hct Hin), Hrun. reflexivity.
  - intros e H. unfold on_exception. now rewrite H.
  - intros e H. unfold on_exception. now rewrite H.
  - intros file ct w e Hct Hin Hkey.
    rewrite (scan_allowed file ct w Hct Hin), process_run. cbn zeta.
    now rewrite Hkey.
  - intros file ct w Hct Hin key Hkey. subst key.
    rewrite (scan_allowed file ct w Hct Hin), process_run. cbn zeta.
    rewrite Hkey. split; [|split; [|split]].
    + intros e Himg. now rewrite Himg.
    + intros t e Himg Hgen Hbad. rewrite Himg, Hgen. cbn [fst after_reply].
      rewrite Hbad. apply Hb.
    + intros e Himg Hgen. rewrite Himg, Hgen. cbn [fst after_reply]. apply Hb.
    + intros Himg Hgen. rewrite Himg, Hgen. reflexivity.
  - intros self data ct w e w' H. rewrite GeminiFacts.parse_receipt_run in H.
    destruct (Image_verify data) as [e0|].
    { injection H as <- _. left. now exists e0. }
    destruct (generate_content _ _ _ _ _) as [t| |e1]; cbn [after_reply] in H.
    + destruct (normalize_response recursion_headroom t) as [v|e1] eqn:E;
        [discriminate H|].
      injection H as <- _.
      destruct (is_JSONDecodeError (exc_cls e1)) eqn:Ej.
      * right. left. exists e1. auto.
      * right. right. exists e1. auto.
    + injection H as <- _. right. right. eexists. split; [|split];
        [| reflexivity | apply Hr]; reflexivity.
    + injection H as <- _.
      destruct (is_JSONDecodeError (exc_cls e1)) eqn:E.
      * right. left. exists e1. auto.
      * right. right. exists e1. auto.
  - intros a b c Hb' Hc. unfold invalid_image, reraise, on_exception.
    rewrite Hb', Hc. cbn [exc_cls exc_str is_ValueError].
    repeat split; intros H; discriminate H.
Qed.


(** C7: the response to a request depends on the request, the
    environment and the settings only; a call changes neither of the
    last two, so the same request made again gets the same response. *)
Theorem scan_receipt_deterministic :
  (forall file w1 w2,
      os_environ w1 = os_environ w2 -> settings w1 = settings w2 ->
      fst (scan_receipt Image_verify genai_Client generate_content
                        recursion_headroom file w1)
      = fst (scan_receipt Image_verify genai_Client generate_content
                          recursion_headroom file w2))
  /\ (forall file w,
        let w' :=
          snd (scan_receipt Image_verify genai_Client generate_content
                            recursion_headroom file w) in
        os_environ w' = os_environ w /\ settings w' = settings w)
  /\ (forall file w,
        let w' :=
          snd (scan_receipt Image_verify genai_Client generate_content
                            recursion_headroom file w) in
        fst (scan_receipt Image_verify genai_Client generate_content
                          recursion_headroom file w')
        = fst (scan_receipt Image_verify genai_Client generate_content
                            recursion_headroom file w)).
Proof.
  split; [exact scan_response_world|]. split.
  - intros file w w'. subst w'.
    destruct (scan_extends file w) as [evs ->]. now split.
  - intros file w w'. subst w'. apply scan_response_world;
      destruct (scan_extends file w) as [evs ->]; reflexivity.
Qed.

End Endpoint.

Lemma content_type_gate_witness :
  Receipts.scan_receipt Scenario.image_ok Scenario.client_ok
    (Scenario.model_says Scenario.coffee) Scenario.headroom
    Scenario.gif_upload Scenario.world
  = (HTTPException 400
       (py "Invalid file type. Allowed types: image/jpeg, image/png, image/webp, image/heic"),
     Scenario.world)
  /\ exists evs,
      snd (Receipts.scan_receipt Scenario.image_ok Scenario.client_ok
             (Scenario.model_says Scenario.coffee) Scenario.headroom
             Scenario.upload Scenario.world)
      = extend Scenario.world (EvFileRead :: evs).
Proof.
  destruct (content_type_gate Scenario.image_ok Scenario.client_ok
              (Scenario.model_says Scenario.coffee) Scenario.headroom) as (H1 & _ & H3).
  split.
  - apply H1. reflexivity.
  - apply H3. reflexivity.
Defined.

(** The three kinds of failure, each through the whole endpoint. *)
Lemma exception_mapping_witness :
  fst (Receipts.scan_receipt Scenario.image_bad Scenario.client_ok
         (Scenario.model_says Scenario.coffee) Scenario.headroom
         Scenario.upload Scenario.world)
  = HTTPException 400 (py "Invalid image file: cannot identify image file")
  /\ fst (Receipts.scan_receipt Scenario.image_ok Scenario.client_ok
            (Scenario.model_says Scenario.apology) Scenario.headroom
            Scenario.upload Scenario.world)
     = HTTPException 400
         (py "Failed to parse Gemini response as JSON: Expecting value: line 1 column 1 (char 0)")
  /\ fst (Receipts.scan_receipt Scenario.image_ok Scenario.client_ok
            (Scenario.model_fails (mkExn Exception (py "429 RESOURCE_EXHAUSTED")))
            Scenario.headroom Scenario.upload Scenario.world)
     = HTTPException 500
         (py "Failed to process receipt: Gemini API error: 429 RESOURCE_EXHAUSTED").
Proof.
  split; [|split].
  - destruct (exception_mapping Scenario.image_bad Scenario.client_ok
                (Scenario.model_says Scenario.coffee) Scenario.headroom)
      as (_ & _ & _ & _ & H & _).
    destruct (H Scenario.upload (py "image/png") Scenario.world
                eq_refl eq_refl eq_refl) as (H1 & _ & _).
    apply (H1 (mkExn Exception (py "cannot identify image file"))). reflexivity.
  - destruct (exception_mapping Scenario.image_ok Scenario.client_ok
                (Scenario.model_says Scenario.apology) Scenario.headroom)
      as (_ & _ & _ & _ & H & _).
    destruct (H Scenario.upload (py "image/png") Scenario.world
                eq_refl eq_refl eq_refl) as (_ & H2 & _).
    apply (H2 Scenario.apology
              (Json.decode_error "Expecting value" Scenario.apology 0));
      vm_compute; reflexivity.
  - destruct (exception_mapping Scenario.image_ok Scenario.client_ok
                (Scenario.model_fails (mkExn Exception (py "429 RESOURCE_EXHAUSTED")))
                Scenario.headroom)
      as (_ & _ & _ & _ & H & _).
    destruct (H Scenario.upload (py "image/png") Scenario.world
                eq_refl eq_refl eq_refl) as (_ & _ & H3 & _).
    apply (H3 (mkExn Exception (py "429 RESOURCE_EXHAUSTED"))); reflexivity.
Defined.

(** Two failures that are neither an undecodable image nor a malformed
    response and are answered with 400 all the same.  With no key
    anywhere the client constructor raises a [ValueError], which goes
    out as a 400 with the constructor's message.  A [JSONDecodeError]
    raised by the model call, a failure of the upstream call, gets the
    very response of a model text that is no JSON. *)
Lemma exception_mapping_counterexample :
  fst (Receipts.scan_receipt Scenario.image_ok Scenario.client_needs_key
         (Scenario.model_says Scenario.coffee) Scenario.headroom
         Scenario.upload Scenario.keyless_world)
  = HTTPException 400 Scenario.missing_key
  /\ fst (Receipts.scan_receipt Scenario.image_ok Scenario.client_ok
            (Scenario.model_fails
               (mkExn JSONDecodeError
                      (py "Expecting value: line 1 column 1 (char 0)")))
            Scenario.headroom Scenario.upload Scenario.world)
     = HTTPException 400
         (py "Failed to parse Gemini response as JSON: Expecting value: line 1 column 1 (char 0)")
  /\ fst (Receipts.scan_receipt Scenario.image_ok Scenario.client_ok
            (Scenario.model_says Scenario.apology)
            Scenario.headroom Scenario.upload Scenario.world)
     = HTTPException 400
         (py "Failed to parse Gemini response as JSON: Expecting value: line 1 column 1 (char 0)").
Proof. split; [|split]; vm_compute; reflexivity. Qed.


Lemma scan_receipt_deterministic_witness :
  fst (Receipts.scan_receipt Scenario.image_ok Scenario.client_ok
         (Scenario.model_says Scenario.coffee) Scenario.headroom Scenario.upload
         (snd (Receipts.scan_receipt Scenario.image_ok Scenario.client_ok
                 (Scenario.model_says Scenario.coffee) Scenario.headroom
                 Scenario.upload
                 Scenario.world)))
  = fst (Receipts.scan_receipt Scenario.image_ok Scenario.client_ok
           (Scenario.model_says Scenario.coffee) Scenario.headroom
           Scenario.upload Scenario.world).
Proof.
  apply (proj2 (proj2 (scan_receipt_deterministic Scenario.image_ok
                         Scenario.client_ok (Scenario.model_says Scenario.coffee) Scenario.headroom))).
Defined.

(** A value that is no scan result at all is returned just the same. *)
Example any_json_is_returned :
  fst (Receipts.scan_receipt Scenario.image_ok Scenario.client_ok
         (Scenario.model_says (pyq "[1, {'price': 'free'}]")) Scenario.headroom
         Scenario.upload Scenario.world)
  = Ok200 (PyList [PyInt 1; PyDict [(py "price", PyStr (py "free"))]]).
Proof. vm_compute. reflexivity. Qed.

(** A call leaves four outside calls on the trace, in order. *)
Example scenario_trace :
  trace (snd (Receipts.scan_receipt Scenario.image_ok Scenario.client_ok
                (Scenario.model_says Scenario.coffee) Scenario.headroom
                Scenario.upload Scenario.world))
  = [EvFileRead; EvClientInit (py "k-123"); EvImageVerify Scenario.png;
     EvGenerateContent (py "k-123") (py "gemini-2.5-flash") prompt
                       Scenario.png (py "image/png")].
Proof. vm_compute. reflexivity. Qed.

End ReceiptsFacts.

(* ================================================================== *)
(** * Facts about the configuration loader *)
(* ================================================================== *)

Module ConfigFacts.
Import Config.

Section BaseSettings.

Variable str_lower : pystr -> pystr.
Variable validate_bool : pystr -> option bool.
Variable validate_int : pystr -> option Z.
Variable validation_message : list pystr -> pystr.

(** Short names for the loader over these four. *)
Local Abbreviation lookup := (lookup_ci str_lower).
Local Abbreviation missing := (absent str_lower).
Local Abbreviation new :=
  (Settings_new str_lower validate_bool validate_int validation_message).
Local Abbreviation get :=
  (get_settings str_lower validate_bool validate_int validation_message).

Lemma lookup_absent (vars : env_vars) (name : pystr) :
  missing vars name -> lookup vars name = None.
Proof.
  induction vars as [|[k v] vars IH]; intros H; [reflexivity|].
  cbn [lookup_ci]. rewrite IH by (intros k' v' Hin; apply (H k' v'); now right).
  destruct (str_eqb (str_lower k) name) eqn:E; [|reflexivity].
  apply StrFacts.str_eqb_eq in E. exfalso. apply (H k v); [now left|exact E].
Qed.

Lemma lookup_app (a b : env_vars) (name : pystr) :
  lookup (a ++ b) name =
  match lookup b name with
  | Some v => Some v
  | None => lookup a name
  end.
Proof.
  induction a as [|[k v] a IH]; cbn [app lookup_ci].
  - now destruct (lookup b name).
  - rewrite IH. now destruct (lookup b name).
Qed.




(** Of the variables with the same lowered name the last one counts,
    and the environment comes before the [.env] file. *)
Lemma lookup_last (before after : env_vars) (k v name : pystr) :
  str_lower k = name -> missing after name ->
  lookup (before ++ (k, v) :: after) name = Some v.
Proof.
  intros Hk Ha. rewrite lookup_app. cbn [lookup_ci].
  rewrite (lookup_absent after name Ha).
  rewrite Hk, StrFacts.str_eqb_refl. reflexivity.
Qed.




End BaseSettings.


(** A variable is matched whatever its case, and is read as the field's
    type. *)
Example port_from_environment :
  Settings_new Scenario.ascii_lower Scenario.flag_of Scenario.number_of
               Scenario.message_of
               [(py "Port", py "9000"); (py "EXPO_PUBLIC_API_URL", py "x")] []
  = Return {| gemini_api_key := py ""; app_name := py "Divvit Backend";
              debug := false; port := 9000 |}.
Proof. vm_compute. reflexivity. Qed.

End ConfigFacts.

(* ================================================================== *)
(** * More about the decoder: text after a value *)
(* ================================================================== *)

Module DecoderFacts.
Import Json Further JsonFacts.

Lemma head_is_app (c : pychar) (s x : pystr) :
  s <> [] -> head_is c (s ++ x) = head_is c s.
Proof. destruct s; [congruence|reflexivity]. Qed.

Lemma head_is_true_app (c : pychar) (s x : pystr) :
  head_is c s = true -> head_is c (s ++ x) = true.
Proof. destruct s; [discriminate|intros H; exact H]. Qed.

Lemma tl_app (s x : pystr) : s <> [] -> tl (s ++ x) = tl s ++ x.
Proof. destruct s; [congruence|reflexivity]. Qed.

Lemma head_is_nonempty (c : pychar) (s : pystr) : head_is c s = true -> s <> [].
Proof. destruct s; [discriminate|discriminate]. Qed.

Lemma skip_ws_ext (s x : pystr) (pos : nat) (r : pystr) (q : nat) :
  skip_ws s pos = (r, q) -> r <> [] -> skip_ws (s ++ x) pos = (r ++ x, q).
Proof.
  revert pos. induction s as [|c s IH]; intros pos H Hr; cbn [skip_ws app] in *.
  - injection H as <- <-. congruence.
  - destruct (is_ws c); [now apply IH|]. now injection H as <- <-.
Qed.

Lemma skip_ws_through (s x : pystr) (pos q : nat) :
  skip_ws s pos = ([], q) -> skip_ws (s ++ x) pos = skip_ws x q.
Proof.
  revert pos. induction s as [|c s IH]; intros pos H; cbn [skip_ws app] in *.
  - now injection H as <-.
  - destruct (is_ws c); [now apply IH|discriminate H].
Qed.

Lemma is_ws_stop (c : pychar) : is_ws c = true -> number_stop c = true.
Proof.
  unfold is_ws. intros H.
  repeat (apply orb_prop in H as [H|H]); apply N.eqb_eq in H; subst c; reflexivity.
Qed.

(** What is left before a closing character, spaces or not, is settled. *)
Lemma settled_skip (s x : pystr) (p : nat) (s' : pystr) (p' : nat) (c : pychar) :
  skip_ws s p = (s', p') -> head_is c s' = true -> number_stop c = true ->
  settled s x.
Proof.
  intros H Hh Hc. unfold settled. destruct s as [|a s0]; cbn [skip_ws app] in *.
  - injection H as <- _. discriminate Hh.
  - destruct (is_ws a) eqn:Ea; [now apply is_ws_stop|].
    injection H as <- _. cbn [head_is] in Hh. apply N.eqb_eq in Hh. now subst a.
Qed.

(** ** Strings *)

Lemma scanstring_ext :
  forall n s x pos begin acc k r q,
    List.length s <= n ->
    scanstring s pos begin acc = Scanned k r q ->
    scanstring (s ++ x) pos begin acc = Scanned k (r ++ x) q.
Proof.
  induction n as [|n IH]; intros s x pos begin acc k r q Hn H.
  - destruct s; [discriminate H | simpl in Hn; lia].
  - destruct s as [|c s1]; [discriminate H|].
    cbn [scanstring] in H. cbn [app scanstring].
    repeat (first [discriminate H | break_match_hyp H];
            cbv beta match in H; cbn [app]; cbv beta match).
    all: try discriminate H.
    all: try (match type of H with Scanned _ _ _ = Scanned _ _ _ => idtac end;
              injection H as <- <- <-; reflexivity).
    all: repeat (break_match_goal; cbv beta match).
    all: try (match goal with
              | E : (_ && _ && _)%bool = true |- _ =>
                  apply andb_prop in E as [E ?]; apply andb_prop in E as [_ E];
                  repeat match goal with
                    | X : (_ =? _)%N = true |- _ => apply N.eqb_eq in X
                    end;
                  subst; simpl in H; discriminate H
              end).
    all: try (match goal with
         | |- scanstring _ ?p ?b ?a = Scanned _ (?r0 ++ ?xx) _ =>
             match type of H with
             | scanstring ?X _ _ _ = _ =>
                 refine (IH X xx p b a k r0 q _ H);
                 subst; cbn [List.length] in *; lia
             end
         end).
Qed.

(** ** Numbers *)

Lemma number_stop_inv (c : pychar) :
  number_stop c = true ->
  is_digit c = false /\ (c =? 46)%N = false
  /\ (c =? 101)%N = false /\ (c =? 69)%N = false.
Proof.
  unfold number_stop. intros H. apply negb_true_iff in H.
  repeat (apply orb_false_elim in H as [H ?]). auto.
Qed.

Lemma span_digits_rest (s ds r : pystr) : span_digits s = (ds, r) -> no_digit r.
Proof.
  revert ds r. induction s as [|c s IH]; intros ds r H; cbn [span_digits] in H.
  - injection H as <- <-. exact I.
  - destruct (is_digit c) eqn:E.
    + destruct (span_digits s) as [ds' r'] eqn:E'. injection H as <- <-.
      now apply (IH ds').
    + injection H as <- <-. exact E.
Qed.

Lemma span_digits_ext (s x ds r : pystr) :
  span_digits s = (ds, r) -> no_digit (r ++ x) ->
  span_digits (s ++ x) = (ds, r ++ x).
Proof.
  revert ds r. induction s as [|c s IH]; intros ds r H Hx;
    cbn [span_digits app] in *.
  - injection H as <- <-. cbn [app] in *. destruct x as [|c x]; [reflexivity|].
    cbn [span_digits]. cbn [no_digit] in Hx. now rewrite Hx.
  - destruct (is_digit c) eqn:E.
    + destruct (span_digits s) as [ds' r'] eqn:E'. injection H as <- <-.
      now rewrite (IH ds' r' eq_refl Hx).
    + now injection H as <- <-.
Qed.

Lemma no_digit_app (r x : pystr) : no_digit r -> r <> [] -> no_digit (r ++ x).
Proof. destruct r; [congruence|intros H _; exact H]. Qed.

(** What the digits of a number leave, followed by [x], starts with
    no digit when what the whole number leaves is settled. *)
Lemma rest_no_digit (s x ds r : pystr) :
  span_digits s = (ds, r) -> (r = [] -> no_digit x) -> no_digit (r ++ x).
Proof.
  intros H Hx. destruct r as [|c r']; [now apply Hx|].
  apply span_digits_rest in H. exact H.
Qed.

Lemma settled_no_fraction (r x : pystr) : settled r x -> no_fraction (r ++ x).
Proof.
  unfold settled, no_fraction. destruct (r ++ x) as [|c l]; [easy|].
  intros H. apply number_stop_inv in H. tauto.
Qed.

Lemma no_fraction_no_digit (l : pystr) : no_fraction l -> no_digit l.
Proof. destruct l as [|c l]; [easy|]. now intros [H _]. Qed.

Lemma scan_sign_ext (s x sg r : pystr) :
  scan_sign s = (sg, r) -> s <> [] -> scan_sign (s ++ x) = (sg, r ++ x).
Proof.
  unfold scan_sign. intros H Hs. rewrite (head_is_app _ s x Hs).
  destruct (head_is 45%N s); injection H as <- <-; [|reflexivity].
  now rewrite (tl_app s x Hs).
Qed.

Lemma scan_integer_ext (s x i r : pystr) :
  scan_integer s = Some (i, r) -> no_digit (r ++ x) ->
  scan_integer (s ++ x) = Some (i, r ++ x).
Proof.
  unfold scan_integer. intros H Hx. destruct s as [|d s2]; [discriminate H|].
  cbn [app]. destruct ((49 <=? d) && (d <=? 57))%N.
  - destruct (span_digits s2) as [ds r'] eqn:E. injection H as <- <-.
    now rewrite (span_digits_ext s2 x ds r' E Hx).
  - destruct (d =? 48)%N; [|discriminate H]. now injection H as <- <-.
Qed.

Lemma scan_frac_ext (s x f r : pystr) :
  scan_frac s = (f, r) -> no_fraction (r ++ x) ->
  scan_frac (s ++ x) = (f, r ++ x).
Proof.
  unfold scan_frac. intros H Hx.
  destruct s as [|dot [|f0 s']]; cbn [app] in *.
  - injection H as <- <-. cbn [app] in *. destruct x as [|a [|b x]]; try reflexivity.
    destruct Hx as [_ Hx]. now rewrite Hx.
  - injection H as <- <-. cbn [app] in *. destruct x as [|b x]; [reflexivity|].
    destruct Hx as [_ Hx]. now rewrite Hx.
  - destruct ((dot =? 46)%N && is_digit f0).
    + destruct (span_digits s') as [fs r'] eqn:E. injection H as <- <-.
      now rewrite (span_digits_ext s' x fs r' E (no_fraction_no_digit _ Hx)).
    + now injection H as <- <-.
Qed.

Lemma scan_frac_back (s x f r : pystr) :
  scan_frac s = (f, r) -> no_fraction (r ++ x) -> no_digit (s ++ x).
Proof.
  unfold scan_frac. intros H Hx.
  destruct s as [|dot [|f0 s']]; cbn [app] in *.
  - injection H as <- <-. now apply no_fraction_no_digit.
  - injection H as <- <-. now destruct Hx.
  - destruct ((dot =? 46)%N && is_digit f0) eqn:E.
    + apply andb_prop in E as [E _]. apply N.eqb_eq in E. now subst dot.
    + injection H as <- <-. now destruct Hx.
Qed.

Lemma scan_exp_sign_ext (s x g r : pystr) :
  scan_exp_sign s = (g, r) ->
  (forall d, s = [d] -> ((d =? 45) || (d =? 43))%N = false) ->
  s <> [] ->
  scan_exp_sign (s ++ x) = (g, r ++ x).
Proof.
  unfold scan_exp_sign. intros H Hd Hs.
  destruct s as [|a [|b t]]; cbn [app] in *; [congruence| |].
  - injection H as <- <-. destruct x as [|b x]; [reflexivity|].
    now rewrite (Hd a eq_refl).
  - destruct ((a =? 45) || (a =? 43))%N; now injection H as <- <-.
Qed.

Lemma digit_no_sign (d : pychar) :
  is_digit d = true -> ((d =? 45) || (d =? 43))%N = false.
Proof.
  unfold is_digit. intros H. apply andb_prop in H as [H _]. apply N.leb_le in H.
  apply orb_false_intro; apply N.eqb_neq; lia.
Qed.

Lemma scan_exp_ext (s x e r : pystr) :
  scan_exp s = (e, r) -> settled r x -> scan_exp (s ++ x) = (e, r ++ x).
Proof.
  unfold scan_exp. intros H Hx.
  destruct s as [|c s']; cbn [app] in *.
  - injection H as <- <-. cbn [app]. unfold settled in Hx. cbn [app] in Hx.
    destruct x as [|a x]; [reflexivity|].
    apply number_stop_inv in Hx as (_ & _ & H1 & H2). now rewrite H1, H2.
  - destruct ((c =? 101) || (c =? 69))%N eqn:Ec; [|now injection H as <- <-].
    destruct (scan_exp_sign s') as [g s''] eqn:Eg.
    destruct (span_digits s'') as [es r'] eqn:Ed.
    destruct es as [|d es].
    + injection H as <- <-. unfold settled in Hx. cbn [app] in Hx.
      apply number_stop_inv in Hx as (_ & _ & H1 & H2).
      rewrite H1, H2 in Ec. discriminate Ec.
    + injection H as <- <-.
      assert (Hs' : s' <> []).
      { intros ->. cbn in Eg. injection Eg as <- <-. discriminate Ed. }
      rewrite (scan_exp_sign_ext s' x g s'' Eg); [| |exact Hs'].
      * rewrite (span_digits_ext s'' x (d :: es) r' Ed); [reflexivity|].
        apply (rest_no_digit s'' x (d :: es) r' Ed). intros ->.
        apply no_fraction_no_digit. now apply settled_no_fraction in Hx.
      * intros a ->. cbn in Eg. injection Eg as <- <-.
        cbn [span_digits] in Ed. destruct (is_digit a) eqn:Ea;
          [now apply digit_no_sign|discriminate Ed].
Qed.

Lemma scan_exp_back (s x e r : pystr) :
  scan_exp s = (e, r) -> settled r x -> no_fraction (s ++ x).
Proof.
  unfold scan_exp. intros H Hx.
  destruct s as [|c s'].
  - injection H as <- <-. now apply settled_no_fraction.
  - destruct ((c =? 101) || (c =? 69))%N eqn:Ec;
      [|injection H as <- <-; now apply settled_no_fraction].
    cbn [app no_fraction].
    apply orb_prop in Ec as [Ec|Ec]; apply N.eqb_eq in Ec; subst c; now split.
Qed.

Lemma match_number_ext (s x : pystr) (pos : nat) v r q :
  match_number s pos = Scanned v r q -> settled r x ->
  match_number (s ++ x) pos = Scanned v (r ++ x) q.
Proof.
  unfold match_number. intros H Hx.
  destruct (scan_sign s) as [sg s1] eqn:E1.
  destruct (scan_integer s1) as [[i s3]|] eqn:E2; [|discriminate H].
  destruct (scan_frac s3) as [f s4] eqn:E3.
  destruct (scan_exp s4) as [e s5] eqn:E4.
  cbv zeta in H.
  assert (Hr : r = s5) by (break_all H; now injection H as _ <- _).
  subst r.
  assert (Hs : s <> []).
  { intros ->. cbn in E1. injection E1 as <- <-. discriminate E2. }
  pose proof (scan_exp_back s4 x e s5 E4 Hx) as H4.
  pose proof (scan_frac_back s3 x f s4 E3 H4) as H3.
  rewrite (scan_sign_ext s x sg s1 E1 Hs).
  rewrite (scan_integer_ext s1 x i s3 E2 H3).
  rewrite (scan_frac_ext s3 x f s4 E3 H4).
  rewrite (scan_exp_ext s4 x e s5 E4 Hx).
  cbv zeta. break_all H; now injection H as <- <-.
Qed.

(** ** Constants *)

Lemma startswith_ext (s x p : pystr) :
  startswith s p = true -> startswith (s ++ x) p = true.
Proof.
  revert s. induction p as [|a p IH]; intros s H; [now destruct (s ++ x)|].
  destruct s as [|c s]; [discriminate H|]. cbn [startswith app] in *.
  apply andb_prop in H as [H1 H2]. now rewrite H1, (IH s H2).
Qed.

Lemma match_constant_ext (s x name : pystr) (v : pyobj) :
  match_constant constants s = Some (name, v) ->
  match_constant constants (s ++ x) = Some (name, v).
Proof.
  intros H. apply match_constant_some in H as [Hin Hs].
  unfold constants in Hin. cbn [In] in Hin.
  destruct Hin as [Hin|[Hin|[Hin|[Hin|[Hin|[Hin|[]]]]]]];
    injection Hin as <- <-;
    (destruct s as [|c s1]; [discriminate Hs|]);
    cbn in Hs; apply andb_prop in Hs as [Hc Hs]; apply N.eqb_eq in Hc; subst c;
    pose proof (startswith_ext s1 x _ Hs) as Hx;
    cbn; cbn in Hx; rewrite Hx; reflexivity.
Qed.

Lemma skipn_ext (n : nat) (s x : pystr) :
  n <= List.length s -> skipn n (s ++ x) = skipn n s ++ x.
Proof.
  intros H. rewrite skipn_app.
  replace (n - List.length s) with 0 by lia. reflexivity.
Qed.

(** A number starts with a digit, or with a minus and a digit. *)
Lemma number_start (s : pystr) (pos : nat) v r q :
  match_number s pos = Scanned v r q ->
  exists d s', is_digit d = true /\ (s = d :: s' \/ s = 45%N :: d :: s').
Proof.
  unfold match_number, scan_sign. intros H.
  assert (Hi : forall t i t', scan_integer t = Some (i, t') ->
               exists d t0, is_digit d = true /\ t = d :: t0).
  { intros t i t' Ht. unfold scan_integer in Ht.
    destruct t as [|d t0]; [discriminate Ht|]. exists d, t0. split; [|reflexivity].
    unfold is_digit.
    destruct ((49 <=? d) && (d <=? 57))%N eqn:E.
    - apply andb_prop in E as [A B]. apply N.leb_le in A. rewrite B, andb_true_r.
      apply N.leb_le. lia.
    - destruct (d =? 48)%N eqn:E0; [|discriminate Ht].
      apply N.eqb_eq in E0. now subst d. }
  destruct (head_is 45%N s) eqn:Hh.
  - destruct s as [|c s1]; [discriminate Hh|]. cbn [head_is] in Hh.
    apply N.eqb_eq in Hh. subst c. cbn [tl] in H.
    destruct (scan_integer s1) as [[i s3]|] eqn:E; [|discriminate H].
    destruct (Hi _ _ _ E) as (d & t0 & Hd & ->). exists d, t0. auto.
  - destruct (scan_integer s) as [[i s3]|] eqn:E; [|discriminate H].
    destruct (Hi _ _ _ E) as (d & t0 & Hd & ->). exists d, t0. auto.
Qed.

Lemma number_no_constant (s x : pystr) (pos : nat) v r q :
  match_number s pos = Scanned v r q ->
  match_constant constants (s ++ x) = None.
Proof.
  intros H. apply number_start in H as (d & s' & Hd & Hs).
  unfold is_digit in Hd. apply andb_prop in Hd as [A B].
  apply N.leb_le in A, B.
  destruct (match_constant constants (s ++ x)) as [[name v0]|] eqn:E;
    [|reflexivity].
  exfalso. apply match_constant_some in E as [Hin Hc].
  unfold constants in Hin. cbn [In] in Hin.
  destruct Hs as [-> | ->];
    destruct Hin as [Hin|[Hin|[Hin|[Hin|[Hin|[Hin|[]]]]]]];
    injection Hin as <- _; cbn in Hc;
    repeat match goal with
      | X : (_ && _)%bool = true |- _ => apply andb_prop in X as [X ?]
      | X : (_ =? _)%N = true |- _ => apply N.eqb_eq in X
      end; try discriminate; lia.
Qed.

(** ** Values *)

Lemma opens_head (c : pychar) (s : pystr) :
  opens (c :: s) = true ->
  (c =? 34)%N = false -> (c =? 123)%N = false -> (c =? 91)%N = false -> False.
Proof.
  unfold opens. cbn [head_is]. intros H A B C. rewrite A, B, C in H. discriminate H.
Qed.

Lemma scan_ext (fuel : nat) :
  (forall depth s pos v r q x,
      scan_once fuel depth s pos = Scanned v r q ->
      opens s = true \/ settled r x ->
      scan_once fuel depth (s ++ x) pos = Scanned v (r ++ x) q)
  /\ (forall depth pairs,
        ext_ok (fun s pos => object_loop fuel depth s pos pairs))
  /\ (forall depth items,
        ext_ok (fun s pos => array_loop fuel depth s pos items)).
Proof.
  induction fuel as [|fuel (IHs & IHo & IHa)];
    [repeat split; intros; try intros s pos v r q x H; discriminate|].
  destruct (scan_rest_lt fuel) as (Ls & Lo & La).
  assert (Ne : forall (a b : pystr), List.length a < List.length b -> b <> [])
    by (intros a b L ->; simpl in L; lia).
  repeat split.
  - intros depth s pos v r q x H Hx. cbn [scan_once] in H.
    destruct s as [|c s1]; [discriminate H|]. cbn [app scan_once].
    destruct (c =? 34)%N eqn:C1.
    { apply scan_map_scanned in H as (k & H & ->).
      now rewrite (scanstring_ext (List.length s1) s1 x _ _ _ k r q (le_n _) H). }
    destruct (c =? 123)%N eqn:C2.
    { destruct depth as [|depth]; [discriminate H|].
      destruct (skip_ws s1 (pos + 1)) as [s2 p2] eqn:E.
      destruct (head_is 125%N s2) eqn:Hh.
      - pose proof (head_is_nonempty _ _ Hh) as N2.
        rewrite (skip_ws_ext s1 x _ s2 p2 E N2), (head_is_true_app _ s2 x Hh).
        injection H as <- <- <-. now rewrite (tl_app s2 x N2).
      - pose proof (Ne _ _ (Lo depth [] s2 p2 v r q H)) as N2.
        rewrite (skip_ws_ext s1 x _ s2 p2 E N2), (head_is_app _ s2 x N2), Hh.
        now apply (IHo depth []). }
    destruct (c =? 91)%N eqn:C3.
    { destruct depth as [|depth]; [discriminate H|].
      destruct (skip_ws s1 (pos + 1)) as [s2 p2] eqn:E.
      destruct (head_is 93%N s2) eqn:Hh.
      - pose proof (head_is_nonempty _ _ Hh) as N2.
        rewrite (skip_ws_ext s1 x _ s2 p2 E N2), (head_is_true_app _ s2 x Hh).
        injection H as <- <- <-. now rewrite (tl_app s2 x N2).
      - pose proof (Ne _ _ (La depth [] s2 p2 v r q H)) as N2.
        rewrite (skip_ws_ext s1 x _ s2 p2 E N2), (head_is_app _ s2 x N2), Hh.
        now apply (IHa depth []). }
    change (c :: s1 ++ x) with ((c :: s1) ++ x).
    destruct (match_constant constants (c :: s1)) as [[name value]|] eqn:E.
    + rewrite (match_constant_ext _ x name value E).
      injection H as <- <- <-.
      apply match_constant_some in E as [_ E]. apply startswith_length in E.
      now rewrite (skipn_ext _ (c :: s1) x E).
    + rewrite (number_no_constant _ x pos v r q H).
      destruct Hx as [Hx|Hx]; [now destruct (opens_head c s1 Hx C1 C2 C3)|].
      now apply match_number_ext.
  - intros depth pairs s pos v r q x H. cbn [object_loop] in H |- *.
    destruct (head_is 34%N s) eqn:H1; [|discriminate H].
    pose proof (head_is_nonempty _ _ H1) as N1.
    rewrite (head_is_true_app _ s x H1), (tl_app s x N1).
    destruct (scanstring (tl s) (pos + 1) pos []) as [key s2 p2| | | |] eqn:E2;
      try discriminate H.
    rewrite (scanstring_ext (List.length (tl s)) (tl s) x _ _ _ key s2 p2
               (le_n _) E2).
    destruct (skip_ws s2 p2) as [s3 p3] eqn:E3.
    destruct (head_is 58%N s3) eqn:H3; [|discriminate H].
    pose proof (head_is_nonempty _ _ H3) as N3.
    rewrite (skip_ws_ext s2 x _ s3 p3 E3 N3), (head_is_true_app _ s3 x H3).
    rewrite (tl_app s3 x N3).
    destruct (skip_ws (tl s3) (p3 + 1)) as [s5 p5] eqn:E5.
    destruct (scan_once fuel depth s5 p5) as [val s6 p6| | | |] eqn:E6;
      try discriminate H.
    pose proof (Ne _ _ (Ls depth s5 p5 val s6 p6 E6)) as N5.
    rewrite (skip_ws_ext (tl s3) x _ s5 p5 E5 N5).
    destruct (skip_ws s6 p6) as [s7 p7] eqn:E7.
    assert (N7 : s7 <> []).
    { destruct (head_is 125%N s7) eqn:A; [now apply head_is_nonempty in A|].
      destruct (head_is 44%N s7) eqn:B; [now apply head_is_nonempty in B|].
      discriminate H. }
    assert (S6 : settled s6 x).
    { destruct (head_is 125%N s7) eqn:A;
        [now apply (settled_skip s6 x p6 s7 p7 125%N E7 A)|].
      destruct (head_is 44%N s7) eqn:B;
        [now apply (settled_skip s6 x p6 s7 p7 44%N E7 B)|].
      discriminate H. }
    rewrite (IHs depth s5 p5 val s6 p6 x E6 (or_intror S6)).
    rewrite (skip_ws_ext s6 x _ s7 p7 E7 N7).
    rewrite !(head_is_app _ s7 x N7), (tl_app s7 x N7).
    destruct (head_is 125%N s7); [now injection H as <- <- <-|].
    destruct (head_is 44%N s7); [|discriminate H].
    destruct (skip_ws (tl s7) (p7 + 1)) as [s9 p9] eqn:E9.
    pose proof (Ne _ _ (Lo depth _ s9 p9 v r q H)) as N9.
    rewrite (skip_ws_ext (tl s7) x _ s9 p9 E9 N9).
    now apply IHo.
  - intros depth items s pos v r q x H. cbn [array_loop] in H |- *.
    destruct (scan_once fuel depth s pos) as [val s1 p1| | | |] eqn:E1;
      try discriminate H.
    destruct (skip_ws s1 p1) as [s2 p2] eqn:E2.
    assert (N2 : s2 <> []).
    { destruct (head_is 93%N s2) eqn:A; [now apply head_is_nonempty in A|].
      destruct (head_is 44%N s2) eqn:B; [now apply head_is_nonempty in B|].
      discriminate H. }
    assert (S1 : settled s1 x).
    { destruct (head_is 93%N s2) eqn:A;
        [now apply (settled_skip s1 x p1 s2 p2 93%N E2 A)|].
      destruct (head_is 44%N s2) eqn:B;
        [now apply (settled_skip s1 x p1 s2 p2 44%N E2 B)|].
      discriminate H. }
    rewrite (IHs depth s pos val s1 p1 x E1 (or_intror S1)).
    rewrite (skip_ws_ext s1 x _ s2 p2 E2 N2).
    rewrite !(head_is_app _ s2 x N2), (tl_app s2 x N2).
    destruct (head_is 93%N s2); [now injection H as <- <- <-|].
    destruct (head_is 44%N s2); [|discriminate H].
    destruct (skip_ws (tl s2) (p2 + 1)) as [s4 p4] eqn:E4.
    pose proof (Ne _ _ (La depth _ s4 p4 v r q H)) as N4.
    rewrite (skip_ws_ext (tl s2) x _ s4 p4 E4 N4).
    now apply IHa.
Qed.

(** ** Positions are offsets into the text *)

Lemma scanstring_pos :
  forall n s pos begin acc k r q,
    List.length s <= n ->
    scanstring s pos begin acc = Scanned k r q ->
    q + List.length r = pos + List.length s.
Proof.
  induction n as [|n IH]; intros s pos begin acc k r q Hn H.
  - destruct s; [discriminate H | simpl in Hn; lia].
  - destruct s as [|c s1]; [discriminate H|].
    cbn [scanstring] in H.
    break_all H.
    all: cbn [List.length] in *.
    all: try (injection H as <- <- <-; lia).
    all: try (apply IH in H; cbn [List.length] in *; lia).
Qed.

Lemma skip_ws_pos (s : pystr) (pos : nat) (r : pystr) (q : nat) :
  skip_ws s pos = (r, q) -> q + List.length r = pos + List.length s.
Proof.
  revert pos. induction s as [|c s IH]; intros pos H; cbn [skip_ws] in H.
  - injection H as <- <-. reflexivity.
  - destruct (is_ws c).
    + apply IH in H. cbn [List.length]. lia.
    + injection H as <- <-. reflexivity.
Qed.

Lemma span_digits_pos (s ds r : pystr) :
  span_digits s = (ds, r) -> List.length ds + List.length r = List.length s.
Proof.
  revert ds r. induction s as [|c s IH]; intros ds r H; cbn [span_digits] in H.
  - now injection H as <- <-.
  - destruct (is_digit c).
    + destruct (span_digits s) as [ds' r'] eqn:E. injection H as <- <-.
      specialize (IH _ _ eq_refl). cbn [List.length]. lia.
    + now injection H as <- <-.
Qed.

Lemma match_number_pos (s : pystr) (pos : nat) v r q :
  match_number s pos = Scanned v r q ->
  q + List.length r = pos + List.length s.
Proof.
  unfold match_number. intros H.
  destruct (scan_sign s) as [sg s1] eqn:E1.
  destruct (scan_integer s1) as [[i s3]|] eqn:E2; [|discriminate H].
  destruct (scan_frac s3) as [f s4] eqn:E3.
  destruct (scan_exp s4) as [e s5] eqn:E4.
  cbv zeta in H.
  assert (Hq : r = s5 /\ q = pos + List.length (sg ++ i ++ f ++ e))
    by (break_all H; now injection H as _ <- <-).
  destruct Hq as [-> ->]. clear H. rewrite !length_app.
  assert (L1 : List.length sg + List.length s1 = List.length s).
  { unfold scan_sign in E1. destruct s as [|c s']; cbn [head_is tl] in E1.
    - now injection E1 as <- <-.
    - destruct (c =? 45)%N; now injection E1 as <- <-. }
  assert (L2 : List.length i + List.length s3 = List.length s1).
  { unfold scan_integer in E2. destruct s1 as [|d s2]; [discriminate E2|].
    destruct ((49 <=? d) && (d <=? 57))%N.
    - destruct (span_digits s2) as [ds r'] eqn:E. injection E2 as <- <-.
      apply span_digits_pos in E. cbn [List.length]. lia.
    - destruct (d =? 48)%N; [|discriminate E2]. now injection E2 as <- <-. }
  assert (L3 : List.length f + List.length s4 = List.length s3).
  { unfold scan_frac in E3. destruct s3 as [|dot [|f0 s']];
      try (now injection E3 as <- <-).
    destruct ((dot =? 46)%N && is_digit f0); [|now injection E3 as <- <-].
    destruct (span_digits s') as [fs r'] eqn:E. injection E3 as <- <-.
    apply span_digits_pos in E. cbn [List.length]. lia. }
  assert (L4 : List.length e + List.length s5 = List.length s4).
  { unfold scan_exp in E4. destruct s4 as [|c s']; [now injection E4 as <- <-|].
    destruct ((c =? 101) || (c =? 69))%N; [|now injection E4 as <- <-].
    destruct (scan_exp_sign s') as [g s''] eqn:Eg.
    destruct (span_digits s'') as [es r'] eqn:Ed.
    destruct es as [|d es]; [now injection E4 as <- <-|].
    injection E4 as <- <-. apply span_digits_pos in Ed.
    assert (Lg : List.length g + List.length s'' = List.length s').
    { unfold scan_exp_sign in Eg. destruct s' as [|a [|b t]];
        try (now injection Eg as <- <-).
      destruct ((a =? 45) || (a =? 43))%N; now injection Eg as <- <-. }
    cbn [List.length] in *. rewrite length_app. cbn [List.length]. lia. }
  lia.
Qed.

Lemma scan_pos (fuel : nat) :
  (forall depth s pos v r q,
      scan_once fuel depth s pos = Scanned v r q ->
      q + List.length r = pos + List.length s)
  /\ (forall depth pairs s pos v r q,
         object_loop fuel depth s pos pairs = Scanned v r q ->
         q + List.length r = pos + List.length s)
  /\ (forall depth items s pos v r q,
         array_loop fuel depth s pos items = Scanned v r q ->
         q + List.length r = pos + List.length s).
Proof.
  induction fuel as [|fuel (IHs & IHo & IHa)];
    [repeat split; intros; discriminate|].
  assert (T : forall (c : pychar) (l : pystr),
             head_is c l = true -> List.length l = S (List.length (tl l)))
    by (intros c l; apply head_is_tl).
  repeat split.
  - intros depth s pos v r q H. cbn [scan_once] in H.
    destruct s as [|c s1]; [discriminate H|]. cbn [List.length].
    destruct (c =? 34)%N.
    { apply scan_map_scanned in H as (k & H & _).
      apply (scanstring_pos (List.length s1)) in H; lia. }
    destruct (c =? 123)%N.
    { destruct depth as [|depth]; [discriminate H|].
      destruct (skip_ws s1 (pos + 1)) as [s2 p2] eqn:E. apply skip_ws_pos in E.
      destruct (head_is 125%N s2) eqn:Hh.
      - injection H as _ <- <-. apply T in Hh. lia.
      - apply IHo in H. lia. }
    destruct (c =? 91)%N.
    { destruct depth as [|depth]; [discriminate H|].
      destruct (skip_ws s1 (pos + 1)) as [s2 p2] eqn:E. apply skip_ws_pos in E.
      destruct (head_is 93%N s2) eqn:Hh.
      - injection H as _ <- <-. apply T in Hh. lia.
      - apply IHa in H. lia. }
    destruct (match_constant constants (c :: s1)) as [[name value]|] eqn:E.
    + injection H as _ <- <-. apply match_constant_some in E as [_ E].
      apply startswith_length in E. rewrite length_skipn.
      cbn [List.length] in *. lia.
    + apply match_number_pos in H. cbn [List.length] in H. lia.
  - intros depth pairs s pos v r q H. cbn [object_loop] in H.
    destruct (head_is 34%N s) eqn:H1; [|discriminate H]. apply T in H1.
    destruct (scanstring (tl s) (pos + 1) pos []) as [key s2 p2| | | |] eqn:E2;
      try discriminate H.
    apply (scanstring_pos (List.length (tl s))) in E2; [|lia].
    destruct (skip_ws s2 p2) as [s3 p3] eqn:E3. apply skip_ws_pos in E3.
    destruct (head_is 58%N s3) eqn:H3; [|discriminate H]. apply T in H3.
    destruct (skip_ws (tl s3) (p3 + 1)) as [s5 p5] eqn:E5. apply skip_ws_pos in E5.
    destruct (scan_once fuel depth s5 p5) as [val s6 p6| | | |] eqn:E6;
      try discriminate H.
    apply IHs in E6.
    destruct (skip_ws s6 p6) as [s7 p7] eqn:E7. apply skip_ws_pos in E7.
    destruct (head_is 125%N s7) eqn:H7.
    { injection H as _ <- <-. apply T in H7. lia. }
    destruct (head_is 44%N s7) eqn:H8; [|discriminate H]. apply T in H8.
    destruct (skip_ws (tl s7) (p7 + 1)) as [s9 p9] eqn:E9. apply skip_ws_pos in E9.
    apply IHo in H. lia.
  - intros depth items s pos v r q H. cbn [array_loop] in H.
    destruct (scan_once fuel depth s pos) as [val s1 p1| | | |] eqn:E1;
      try discriminate H.
    apply IHs in E1.
    destruct (skip_ws s1 p1) as [s2 p2] eqn:E2. apply skip_ws_pos in E2.
    destruct (head_is 93%N s2) eqn:H2.
    { injection H as _ <- <-. apply T in H2. lia. }
    destruct (head_is 44%N s2) eqn:H3; [|discriminate H]. apply T in H3.
    destruct (skip_ws (tl s2) (p2 + 1)) as [s4 p4] eqn:E4. apply skip_ws_pos in E4.
    apply IHa in H. lia.
Qed.

(** ** The whole document *)

(** What a successful [loads] went through. *)
Lemma loads_return (d : nat) (s : pystr) (v : pyobj) :
  loads d s = Return v ->
  startswith s [65279%N] = false
  /\ exists s1 p1 s2 p2 p3,
      skip_ws s 0 = (s1, p1)
      /\ scan_once (S (2 * List.length s)) d s1 p1 = Scanned v s2 p2
      /\ skip_ws s2 p2 = ([], p3).
Proof.
  unfold loads. intros H.
  destruct (startswith s [65279%N]); [discriminate H|]. split; [reflexivity|].
  destruct (skip_ws s 0) as [s1 p1].
  destruct (scan_once (S (2 * List.length s)) d s1 p1) as [obj s2 p2| | | |] eqn:E;
    try discriminate H.
  destruct (skip_ws s2 p2) as [[|c s3] p3] eqn:E3; [|discriminate H].
  injection H as ->. exists s1, p1, s2, p2, p3. auto.
Qed.

(** The scan of a document that [loads] accepts, with [x] after it. *)
Lemma loads_scan_ext (d : nat) (s x : pystr) (v : pyobj) :
  loads d s = Return v ->
  opens (fst (skip_ws s 0)) = true
  \/ (forall c x', x = c :: x' -> number_stop c = true) ->
  startswith (s ++ x) [65279%N] = false
  /\ exists s1 p1 s2 p2,
      skip_ws (s ++ x) 0 = (s1 ++ x, p1)
      /\ scan_once (S (2 * List.length (s ++ x))) d (s1 ++ x) p1
         = Scanned v (s2 ++ x) p2
      /\ skip_ws (s2 ++ x) p2 = skip_ws x (List.length s).
Proof.
  intros H Hx.
  apply loads_return in H as (Hb & s1 & p1 & s2 & p2 & p3 & E1 & E2 & E3).
  rewrite E1 in Hx. cbn [fst] in Hx.
  assert (N1 : s1 <> []).
  { pose proof (proj1 (scan_rest_lt _) d s1 p1 v s2 p2 E2) as L.
    intros ->. simpl in L. lia. }
  assert (Ns : s <> []).
  { intros ->. cbn in E1. injection E1 as <- _. now apply N1. }
  split.
  - destruct s as [|c s']; [congruence|]. cbn [app startswith] in Hb |- *.
    destruct s'; destruct x; exact Hb.
  - exists s1, p1, s2, p2.
    pose proof (skip_ws_pos _ _ _ _ E1) as P1.
    pose proof (proj1 (scan_pos _) _ _ _ _ _ _ E2) as P2.
    pose proof (skip_ws_pos _ _ _ _ E3) as P3. cbn [List.length] in P3.
    split; [now apply skip_ws_ext|]. split.
    + apply (fuel_irrelevant (S (2 * List.length s))).
      * apply (proj1 (scan_ext _)); [exact E2|].
        destruct Hx as [Hx|Hx]; [now left|right].
        unfold settled. destruct s2 as [|a s2'].
        -- cbn [app]. destruct x as [|c x']; [exact I|]. now apply (Hx c x').
        -- cbn [app]. cbn [skip_ws] in E3.
           destruct (is_ws a) eqn:Ea; [now apply is_ws_stop|discriminate E3].
      * rewrite !length_app. lia.
    + rewrite (skip_ws_through s2 x p2 p3 E3). f_equal. lia.
Qed.

(** JSON white space after a document is not part of it. *)
Lemma loads_trailing_ws (d : nat) (s x : pystr) (v : pyobj) :
  loads d s = Return v -> all_ws x -> loads d (s ++ x) = Return v.
Proof.
  intros H Hx.
  destruct (loads_scan_ext d s x v H) as (Hb & s1 & p1 & s2 & p2 & E1 & E2 & E3).
  { right. intros c x' ->. apply is_ws_stop. now inversion Hx. }
  unfold loads. rewrite Hb, E1, E2, E3.
  apply (skip_ws_all x (List.length s)) in Hx.
  destruct (skip_ws x (List.length s)) as [r q]. cbn [fst] in Hx. now subst r.
Qed.

(** Anything else after a document is extra data, reported at the
    place where it starts. *)
Lemma loads_extra_data (d : nat) (s : pystr) (c : pychar) (x : pystr)
      (v : pyobj) :
  loads d s = Return v ->
  is_ws c = false ->
  opens (fst (skip_ws s 0)) = true \/ number_stop c = true ->
  loads d (s ++ c :: x)
  = Raise (decode_error "Extra data" (s ++ c :: x) (List.length s)).
Proof.
  intros H Hc Hx.
  destruct (loads_scan_ext d s (c :: x) v H)
    as (Hb & s1 & p1 & s2 & p2 & E1 & E2 & E3).
  { destruct Hx as [Hx|Hx]; [now left|right].
    intros c' x' E. now injection E as <- _. }
  unfold loads. rewrite Hb, E1, E2, E3. cbn [skip_ws]. now rewrite Hc.
Qed.

End DecoderFacts.
(* ================================================================== *)
(** * More about the normalizer *)
(* ================================================================== *)

Module NormalizerFacts.
Import Gemini Further.

(** ** What the normalizer lets through and what it stops *)

Lemma startswith_app (p rest : pystr) : startswith (p ++ rest) p = true.
Proof.
  induction p as [|c p IH]; [now destruct rest|]. simpl.
  now rewrite N.eqb_refl, IH.
Qed.

Lemma strip_fences_pad (pad1 t pad2 : pystr) :
  spaces pad1 -> spaces pad2 ->
  strip_fences (pad1 ++ t ++ pad2) = strip_fences t.
Proof. intros H1 H2. unfold strip_fences. now rewrite StrFacts.strip_pad. Qed.

(** What is between the first line, which starts with the fence, and
    the last line. *)
Lemma fenced_unwrap (pad1 pad2 tag body last : pystr) (d : pychar) :
  spaces pad1 -> spaces pad2 ->
  ~ In NL tag -> ~ In NL (last ++ [d]) -> isspace d = false ->
  strip_fences
    (pad1 ++ (fence ++ tag ++ NL :: body ++ NL :: last ++ [d]) ++ pad2)
  = body.
Proof.
  intros H1 H2 Htag Hlast Hd.
  set (t := fence ++ tag ++ NL :: body ++ NL :: last ++ [d]).
  assert (Et : strip t = t).
  { replace t with (96%N :: ([96%N; 96%N] ++ tag ++ NL :: body ++ NL :: last) ++ [d]).
    - now apply StrFacts.strip_id.
    - unfold t. change fence with [96%N; 96%N; 96%N].
      repeat (rewrite <- app_assoc || rewrite <- app_comm_cons). reflexivity. }
  assert (Ef : startswith (strip t) fence = true)
    by (rewrite Et; apply startswith_app).
  rewrite (strip_fences_pad pad1 t pad2 H1 H2).
  rewrite (GeminiFacts.strip_fences_fenced t Ef), Et. unfold t.
  rewrite app_assoc. apply StrFacts.drop_lines_three; [|exact Hlast].
  intros Hin. apply in_app_or in Hin as [Hin|Hin]; [|now apply Htag].
  revert Hin. apply StrFacts.no_line_feed. reflexivity.
Qed.

(** X1: white space around the answer, of any of the kinds [strip]
    knows (no-break and ideographic spaces included), changes neither
    the text handed to the decoder nor the outcome. *)
Theorem normalizer_ignores_padding (depth : nat) (pad1 t pad2 : pystr) :
  spaces pad1 -> spaces pad2 ->
  strip_fences (pad1 ++ t ++ pad2) = strip_fences t
  /\ normalize_response depth (pad1 ++ t ++ pad2)
     = normalize_response depth t.
Proof.
  intros H1 H2. split; [now apply strip_fences_pad|].
  unfold normalize_response. now rewrite strip_fences_pad.
Qed.

(** X2: a document wrapped in a fence comes out whole.  Whatever
    follows the three backticks on the first line, however many lines
    the document has, and whatever the closing line holds as long as it
    ends in a visible character, the decoder gets the lines in between,
    unchanged; white space around the whole changes nothing. *)
Theorem fenced_document_round_trip
        (depth : nat) (pad1 pad2 tag body last : pystr) (d : pychar) :
  spaces pad1 -> spaces pad2 ->
  ~ In NL tag -> ~ In NL (last ++ [d]) -> isspace d = false ->
  strip_fences
    (pad1 ++ (fence ++ tag ++ NL :: body ++ NL :: last ++ [d]) ++ pad2)
  = body
  /\ normalize_response depth
       (pad1 ++ (fence ++ tag ++ NL :: body ++ NL :: last ++ [d]) ++ pad2)
     = Json.loads depth body.
Proof.
  intros H1 H2 Htag Hlast Hd. split; [now apply fenced_unwrap|].
  unfold normalize_response. now rewrite fenced_unwrap.
Qed.

(** X14: a fenced answer whose lines end in carriage return and line
    feed is read like the same answer with plain line feeds: the
    carriage return left at the end of the document is white space to
    the decoder. *)
Theorem fenced_crlf_document
        (depth : nat) (pad1 pad2 tag body last : pystr) (d : pychar)
        (v : pyobj) :
  spaces pad1 -> spaces pad2 ->
  ~ In NL tag -> ~ In NL (last ++ [d]) -> isspace d = false ->
  Json.loads depth body = Return v ->
  normalize_response depth
    (pad1 ++ (fence ++ tag ++ 13%N :: NL :: body ++ 13%N :: NL :: last ++ [d])
          ++ pad2)
  = Return v.
Proof.
  intros H1 H2 Htag Hlast Hd Hv. unfold normalize_response.
  replace (fence ++ tag ++ 13%N :: NL :: body ++ 13%N :: NL :: last ++ [d])
    with (fence ++ (tag ++ [13%N]) ++ NL :: (body ++ [13%N]) ++ NL :: last ++ [d])
    by (repeat (rewrite <- app_assoc || rewrite <- app_comm_cons); reflexivity).
  rewrite fenced_unwrap; try assumption.
  - apply DecoderFacts.loads_trailing_ws; [exact Hv|]. repeat constructor.
  - intros Hin. apply in_app_or in Hin as [Hin|[Hin|[]]]; [now apply Htag|].
    discriminate Hin.
Qed.

(** A character that starts no value stops the scanner at once. *)
Lemma scan_once_stops (fuel depth : nat) (c : pychar) (x : pystr)
      (pos : nat) :
  Json.value_start c = false ->
  Json.scan_once (S fuel) depth (c :: x) pos = Json.StopIteration pos.
Proof.
  unfold Json.value_start. intros H.
  repeat (apply orb_false_elim in H as [H ?]).
  cbn [Json.scan_once].
  repeat match goal with E : (c =? _)%N = false |- _ => rewrite E end.
  assert (Ec : Json.match_constant Json.constants (c :: x) = None).
  { destruct (Json.match_constant Json.constants (c :: x)) as [[name v]|] eqn:E;
      [|reflexivity].
    apply JsonFacts.match_constant_some in E as [Hin Hs].
    unfold Json.constants in Hin. simpl in Hin.
    destruct Hin as [Hin|[Hin|[Hin|[Hin|[Hin|[Hin|[]]]]]]];
      injection Hin as <- _; cbn in Hs;
      apply andb_prop in Hs as [Hs _]; congruence. }
  rewrite Ec. unfold Json.match_number, Json.scan_sign, Json.scan_integer.
  cbn [Json.head_is tl].
  repeat match goal with E : (c =? _)%N = false |- _ => rewrite E end.
  match goal with E : Json.is_digit c = false |- _ => unfold Json.is_digit in E end.
  destruct ((49 <=? c) && (c <=? 57))%N eqn:E1.
  { apply andb_prop in E1 as [A B]. apply N.leb_le in A.
    rewrite B, andb_true_r in *.
    match goal with E : (48 <=? c)%N = false |- _ => apply N.leb_gt in E; lia end. }
  destruct (c =? 48)%N eqn:E2; [|reflexivity].
  apply N.eqb_eq in E2. subst c. discriminate.
Qed.

Lemma loads_stops (depth : nat) (c : pychar) (x : pystr) :
  isspace c = false -> Json.value_start c = false ->
  Json.loads depth (c :: x)
  = Raise (mkExn JSONDecodeError (no_value_message c)).
Proof.
  intros Hs Hv. unfold Json.loads, no_value_message. cbn [startswith].
  destruct (c =? 65279)%N.
  - destruct x; reflexivity.
  - replace ((false && startswith x [])%bool) with false by reflexivity.
    rewrite (JsonFacts.skip_ws_id c x 0 Hs), (scan_once_stops _ _ c x 0 Hv).
    reflexivity.
Qed.

Section Service.

Variable Image_verify : bytes -> option exn.
Variable generate_content : pystr -> pystr -> pystr -> bytes -> pystr -> reply.
Variable recursion_headroom : nat.

(** What [parse_receipt] raises for a text the decoder stops on at its
    first character. *)
Lemma stopped_at_once (t m : pystr) :
  normalize_response recursion_headroom t = Raise (mkExn JSONDecodeError m) ->
  forall self data ct w,
    Image_verify data = None ->
    generate_content (client self) (model_name self) prompt data ct
    = ReplyText t ->
    fst (parse_receipt Image_verify generate_content recursion_headroom
                       self data ct w)
    = Raise (mkExn ValueError
                   (py "Failed to parse Gemini response as JSON: " ++ m)).
Proof.
  intros E self data ct w Himg Hgen.
  rewrite GeminiFacts.parse_receipt_run, Himg, Hgen.
  cbn [fst after_reply]. now rewrite E.
Qed.

(** X3: an answer whose first visible character can start neither a
    JSON value nor a fence (prose before the fence, for one) is never
    searched for JSON further on: the decoder stops at that character,
    with "Expecting value: line 1 column 1 (char 0)", or, when the
    character is a byte order mark, with "Unexpected UTF-8 BOM (decode
    using utf-8-sig): line 1 column 1 (char 0)", and [parse_receipt]
    raises the malformed-response error with that message. *)
Theorem prose_before_json_raises (t : pystr) (c : pychar) (x : pystr) :
  strip t = c :: x ->
  Json.value_start c = false -> c <> 96%N ->
  normalize_response recursion_headroom t
  = Raise (mkExn JSONDecodeError (no_value_message c))
  /\ (c <> 65279%N -> no_value_message c = expecting_value)
  /\ (c = 65279%N -> no_value_message c = unexpected_bom)
  /\ forall self data ct w,
      Image_verify data = None ->
      generate_content (client self) (model_name self) prompt data ct
      = ReplyText t ->
      fst (parse_receipt Image_verify generate_content recursion_headroom
                         self data ct w)
      = Raise (mkExn ValueError
                     (py "Failed to parse Gemini response as JSON: "
                      ++ no_value_message c)).
Proof.
  intros Hs Hv Hf.
  assert (E : normalize_response recursion_headroom t
              = Raise (mkExn JSONDecodeError (no_value_message c))).
  { unfold normalize_response. rewrite GeminiFacts.strip_fences_plain.
    - rewrite Hs. apply loads_stops; [now apply (StrFacts.strip_head t c x)|exact Hv].
    - rewrite Hs. simpl. apply N.eqb_neq in Hf. now rewrite Hf. }
  split; [exact E|]. split; [|split].
  - intros Hb. unfold no_value_message. apply N.eqb_neq in Hb. now rewrite Hb.
  - intros ->. reflexivity.
  - now apply stopped_at_once.
Qed.

(** X4: an answer that is empty or holds white space only is a
    malformed response, with the decoder's message for the empty
    document. *)
Theorem blank_answer_raises (t : pystr) :
  spaces t ->
  normalize_response recursion_headroom t
  = Raise (mkExn JSONDecodeError expecting_value)
  /\ forall self data ct w,
      Image_verify data = None ->
      generate_content (client self) (model_name self) prompt data ct
      = ReplyText t ->
      fst (parse_receipt Image_verify generate_content recursion_headroom
                         self data ct w)
      = Raise (mkExn ValueError
                     (py "Failed to parse Gemini response as JSON: "
                      ++ expecting_value)).
Proof.
  intros Hs.
  assert (E : normalize_response recursion_headroom t
              = Raise (mkExn JSONDecodeError expecting_value)).
  { unfold normalize_response. rewrite GeminiFacts.strip_fences_plain.
    - now rewrite (StrFacts.strip_spaces t Hs).
    - now rewrite (StrFacts.strip_spaces t Hs). }
  split; [exact E | now apply stopped_at_once].
Qed.

(** A document that [loads] accepts starts with no backtick. *)
Lemma loads_head (d : nat) (s : pystr) (v : pyobj) :
  Json.loads d s = Return v ->
  exists a s', s = a :: s' /\ (a =? 96)%N = false.
Proof.
  intros H.
  apply DecoderFacts.loads_return in H as (_ & s1 & p1 & s2 & p2 & p3 & E1 & E2 & _).
  destruct s as [|a s'].
  - cbn in E1. injection E1 as <- <-. discriminate E2.
  - exists a, s'. split; [reflexivity|]. cbn [Json.skip_ws] in E1.
    destruct (Json.is_ws a) eqn:Ea.
    + unfold Json.is_ws in Ea.
      repeat (apply orb_prop in Ea as [Ea|Ea]); apply N.eqb_eq in Ea; now subst a.
    + injection E1 as <- <-. apply JsonFacts.scan_once_first in E2.
      now apply JsonFacts.value_start_not_backtick.
Qed.

(** X13: text after the JSON is not cut off.  When the trimmed answer
    is a document that [json.loads] accepts followed by anything but
    JSON white space (a remark after the object, for one), the decoder
    reports extra data at the place where that text starts and
    [parse_receipt] raises the malformed-response error.  The document
    is a string, an object or an array, or what follows does not go on
    as a number would. *)
Theorem text_after_json_raises
        (t s : pystr) (c : pychar) (x : pystr) (v : pyobj) :
  strip t = s ++ c :: x ->
  Json.loads recursion_headroom s = Return v ->
  Json.is_ws c = false ->
  opens s = true \/ number_stop c = true ->
  normalize_response recursion_headroom t
  = Raise (Json.decode_error "Extra data" (strip t) (List.length s))
  /\ forall self data ct w,
      Image_verify data = None ->
      generate_content (client self) (model_name self) prompt data ct
      = ReplyText t ->
      fst (parse_receipt Image_verify generate_content recursion_headroom
                         self data ct w)
      = Raise (mkExn ValueError
                     (py "Failed to parse Gemini response as JSON: "
                      ++ exc_str (Json.decode_error "Extra data" (strip t)
                                                    (List.length s)))).
Proof.
  intros Hs Hv Hc Hx.
  assert (E : normalize_response recursion_headroom t
              = Raise (Json.decode_error "Extra data" (strip t)
                                         (List.length s))).
  { unfold normalize_response.
    destruct (loads_head _ s v Hv) as (a & s' & -> & Ha).
    rewrite GeminiFacts.strip_fences_plain
      by (rewrite Hs; cbn [app startswith fence]; simpl; now rewrite Ha).
    rewrite Hs. apply (DecoderFacts.loads_extra_data _ _ c x v Hv Hc).
    destruct Hx as [Hx|Hx]; [left|now right].
    cbn [Json.skip_ws]. destruct (Json.is_ws a) eqn:Ea; [|exact Hx].
    exfalso. unfold opens in Hx. cbn [Json.head_is] in Hx.
    unfold Json.is_ws in Ea.
    repeat (apply orb_prop in Ea as [Ea|Ea]); apply N.eqb_eq in Ea; subst a;
      discriminate Hx. }
  split; [exact E|].
  intros self data ct w Himg Hgen.
  rewrite GeminiFacts.parse_receipt_run, Himg, Hgen.
  cbn [fst after_reply]. now rewrite E.
Qed.

End Service.

(** A receipt behind no-break spaces, which [json.loads] alone would
    refuse, is read like the bare receipt. *)
Lemma normalizer_ignores_padding_witness :
  normalize_response Scenario.headroom
    ([160%N; 10%N] ++ Scenario.coffee ++ [12288%N])
  = normalize_response Scenario.headroom Scenario.coffee
  /\ Json.loads Scenario.headroom
       ([160%N; 10%N] ++ Scenario.coffee ++ [12288%N])
     = Raise (mkExn JSONDecodeError expecting_value).
Proof.
  split.
  - apply (normalizer_ignores_padding Scenario.headroom
             [160%N; 10%N] Scenario.coffee [12288%N]);
      repeat constructor.
  - vm_compute. reflexivity.
Defined.

(** A pretty-printed object between a tagged fence and its closing
    fence, with a line feed after it. *)
Lemma fenced_document_round_trip_witness :
  normalize_response Scenario.headroom
    ([] ++ (fence ++ py "json" ++ NL :: (py "{" ++ NL :: pyq "  'total': 4.90" ++ NL :: py "}")
            ++ NL :: py "``" ++ [96%N]) ++ [NL])
  = Return (PyDict [(py "total", PyFloat (py "4.90"))]).
Proof.
  destruct (fenced_document_round_trip Scenario.headroom [] [NL] (py "json")
              (py "{" ++ NL :: pyq "  'total': 4.90" ++ NL :: py "}")
              (py "``") 96%N) as [_ H].
  - constructor.
  - repeat constructor.
  - apply StrFacts.no_line_feed. reflexivity.
  - apply StrFacts.no_line_feed. reflexivity.
  - reflexivity.
  - etransitivity; [exact H|]. vm_compute. reflexivity.
Defined.

(** Prose, then a fenced object: the fence is not looked for.  A byte
    order mark before the object is reported as such. *)
Lemma prose_before_json_raises_witness :
  fst (parse_receipt Scenario.image_ok
         (Scenario.model_says
            (py "Here is the JSON:" ++ NL :: Scenario.fenced_items))
         Scenario.headroom
         Scenario.service Scenario.png (py "image/png") Scenario.world)
  = Raise (mkExn ValueError
                 (py "Failed to parse Gemini response as JSON: Expecting value: line 1 column 1 (char 0)"))
  /\ fst (parse_receipt Scenario.image_ok
            (Scenario.model_says (65279%N :: Scenario.coffee))
            Scenario.headroom
            Scenario.service Scenario.png (py "image/png") Scenario.world)
     = Raise (mkExn ValueError
                    (py "Failed to parse Gemini response as JSON: Unexpected UTF-8 BOM (decode using utf-8-sig): line 1 column 1 (char 0)")).
Proof.
  split.
  - destruct (prose_before_json_raises Scenario.image_ok
                (Scenario.model_says
                   (py "Here is the JSON:" ++ NL :: Scenario.fenced_items))
                Scenario.headroom
                (py "Here is the JSON:" ++ NL :: Scenario.fenced_items)
                72%N
                (py "ere is the JSON:" ++ NL :: Scenario.fenced_items))
      as (_ & _ & _ & H).
    + vm_compute. reflexivity.
    + reflexivity.
    + discriminate.
    + apply H; reflexivity.
  - destruct (prose_before_json_raises Scenario.image_ok
                (Scenario.model_says (65279%N :: Scenario.coffee))
                Scenario.headroom
                (65279%N :: Scenario.coffee) 65279%N Scenario.coffee)
      as (_ & _ & _ & H).
    + vm_compute. reflexivity.
    + reflexivity.
    + discriminate.
    + apply H; reflexivity.
Defined.

Lemma blank_answer_raises_witness :
  normalize_response Scenario.headroom [32%N; 10%N; 9%N]
  = Raise (mkExn JSONDecodeError expecting_value).
Proof.
  apply (blank_answer_raises Scenario.image_ok (Scenario.model_says [])
           Scenario.headroom [32%N; 10%N; 9%N]).
  repeat constructor.
Defined.

(** The fenced example with the line ends of a Windows text. *)
Lemma fenced_crlf_document_witness :
  normalize_response Scenario.headroom
    (py "```json" ++ 13%N :: NL :: pyq "{'items':[]}" ++ 13%N :: NL :: py "```")
  = Return (PyDict [(py "items", PyList [])]).
Proof.
  apply (fenced_crlf_document Scenario.headroom [] [] (py "json")
           (pyq "{'items':[]}")
           (py "``") 96%N (PyDict [(py "items", PyList [])])).
  - constructor.
  - constructor.
  - apply StrFacts.no_line_feed. reflexivity.
  - apply StrFacts.no_line_feed. reflexivity.
  - reflexivity.
  - vm_compute. reflexivity.
Defined.

(** The receipt, then a friendly remark. *)
Lemma text_after_json_raises_witness :
  fst (parse_receipt Scenario.image_ok
         (Scenario.model_says
            (Scenario.coffee ++ NL :: py "Hope this helps!"))
         Scenario.headroom
         Scenario.service Scenario.png (py "image/png") Scenario.world)
  = Raise (mkExn ValueError
                 (py "Failed to parse Gemini response as JSON: Extra data: line 2 column 1 (char 115)")).
Proof.
  destruct (text_after_json_raises Scenario.image_ok
              (Scenario.model_says
                 (Scenario.coffee ++ NL :: py "Hope this helps!"))
              Scenario.headroom
              (Scenario.coffee ++ NL :: py "Hope this helps!")
              (Scenario.coffee ++ [NL]) 72%N (py "ope this helps!")
              Scenario.coffee_object)
    as [_ H].
  - vm_compute. reflexivity.
  - vm_compute. reflexivity.
  - reflexivity.
  - left. reflexivity.
  - etransitivity; [apply H; reflexivity|]. vm_compute. reflexivity.
Defined.

End NormalizerFacts.

(* ================================================================== *)
(** * The endpoint as a whole *)
(* ================================================================== *)

Module EndpointFacts.
Import Gemini Receipts Further.

Section Endpoint.

Variable Image_verify : bytes -> option exn.
Variable genai_Client : pystr -> option exn.
Variable generate_content :
  pystr -> pystr -> pystr -> bytes -> pystr -> reply.
Variable recursion_headroom : nat.

Local Abbreviation scan :=
  (scan_receipt Image_verify genai_Client generate_content
                recursion_headroom).

(** The response, stage by stage. *)
Lemma scan_response (file : UploadFile) (w : World) :
  fst (scan file w) =
  match content_type file with
  | None => invalid_file_type
  | Some ct =>
      if in_allowed (Some ct) then
        let key := resolve_api_key (settings w) (os_environ w) in
        match genai_Client key with
        | Some e => on_exception e
        | None =>
            match Image_verify (contents file) with
            | Some e => on_exception (invalid_image e)
            | None =>
                match after_reply recursion_headroom
                        (generate_content key (py "gemini-2.5-flash") prompt
                                          (contents file) ct) with
                | Return v => Ok200 v
                | Raise e => on_exception e
                end
            end
        end
      else invalid_file_type
  end.
Proof.
  destruct (content_type file) as [ct|] eqn:Hct.
  - destruct (in_allowed (Some ct)) eqn:Hin.
    + rewrite (ReceiptsFacts.scan_allowed _ _ _ _ file ct w Hct Hin).
      rewrite ReceiptsFacts.process_run. cbn zeta. cbn [fst].
      destruct (genai_Client _); [reflexivity|].
      destruct (Image_verify _); reflexivity.
    + rewrite ReceiptsFacts.scan_rejected; [reflexivity|]. now rewrite Hct.
  - rewrite ReceiptsFacts.scan_rejected; [reflexivity|]. now rewrite Hct.
Qed.

(** The world after the call, stage by stage. *)
Lemma scan_world (file : UploadFile) (ct : pystr) (w : World) :
  content_type file = Some ct ->
  in_allowed (Some ct) = true ->
  let key := resolve_api_key (settings w) (os_environ w) in
  snd (scan file w) =
  match genai_Client key with
  | Some _ => extend w (firstn 2 (full_trace key file ct))
  | None =>
      match Image_verify (contents file) with
      | Some _ => extend w (firstn 3 (full_trace key file ct))
      | None => extend w (full_trace key file ct)
      end
  end.
Proof.
  intros Hct Hin key. subst key.
  rewrite (ReceiptsFacts.scan_allowed _ _ _ _ file ct w Hct Hin).
  rewrite ReceiptsFacts.process_run. cbn zeta. cbn [snd].
  destruct (genai_Client _); [reflexivity|].
  destruct (Image_verify _); reflexivity.
Qed.

Lemma on_exception_not_ok (e : exn) (v : pyobj) : on_exception e <> Ok200 v.
Proof. unfold on_exception. destruct (is_ValueError _); discriminate. Qed.

(** X5: the endpoint answers 200 with body [v] exactly when the
    declared type is allowed, the client could be built, the image
    passed its check and the model answered with a text that the
    normalizer reads as [v]. *)
Theorem success_exactly_when (file : UploadFile) (w : World) (v : pyobj) :
  fst (scan_receipt Image_verify genai_Client generate_content
                    recursion_headroom file w)
  = Ok200 v
  <->
  exists ct t,
    content_type file = Some ct
    /\ in_allowed (Some ct) = true
    /\ genai_Client (resolve_api_key (settings w) (os_environ w)) = None
    /\ Image_verify (contents file) = None
    /\ generate_content (resolve_api_key (settings w) (os_environ w))
                        (py "gemini-2.5-flash") prompt (contents file) ct
       = ReplyText t
    /\ normalize_response recursion_headroom t = Return v.
Proof.
  rewrite scan_response. split.
  - destruct (content_type file) as [ct|]; [|discriminate].
    destruct (in_allowed (Some ct)) eqn:Hin; [|discriminate]. cbn zeta.
    destruct (genai_Client _) as [e|];
      [intros H; now apply on_exception_not_ok in H|].
    destruct (Image_verify _) as [e|];
      [intros H; now apply on_exception_not_ok in H|].
    destruct (generate_content _ _ _ _ _) as [t| |e] eqn:Hg; cbn [after_reply].
    + destruct (normalize_response recursion_headroom t) as [v'|e] eqn:Hn.
      * intros H. injection H as ->. exists ct, t.
        repeat split; reflexivity || assumption.
      * intros H. now apply on_exception_not_ok in H.
    + intros H. now apply on_exception_not_ok in H.
    + intros H. now apply on_exception_not_ok in H.
  - intros (ct & t & Hct & Hin & Hk & Hi & Hg & Hn).
    rewrite Hct, Hin. cbn zeta. rewrite Hk, Hi, Hg. cbn [after_reply].
    now rewrite Hn.
Qed.


(** X7: a 400 has exactly five causes, each with its own message: a
    declared type outside the list, a [ValueError] from the client
    constructor, an image that fails its check, a model text the
    decoder rejects with a [JSONDecodeError], and a [JSONDecodeError]
    raised by the model call itself. *)
Theorem client_error_exactly_when (file : UploadFile) (w : World) (d : pystr) :
  fst (scan_receipt Image_verify genai_Client generate_content
                    recursion_headroom file w)
  = HTTPException 400 d
  <->
  (in_allowed (content_type file) = false
   /\ d = py "Invalid file type. Allowed types: image/jpeg, image/png, image/webp, image/heic")
  \/ exists ct,
      content_type file = Some ct
      /\ in_allowed (Some ct) = true
      /\ ((exists e,
              genai_Client (resolve_api_key (settings w) (os_environ w))
              = Some e
              /\ is_ValueError (exc_cls e) = true
              /\ d = exc_str e)
          \/ (genai_Client (resolve_api_key (settings w) (os_environ w)) = None
              /\ ((exists e,
                      Image_verify (contents file) = Some e
                      /\ d = py "Invalid image file: " ++ exc_str e)
                  \/ (Image_verify (contents file) = None
                      /\ exists e,
                          (generate_content
                             (resolve_api_key (settings w) (os_environ w))
                             (py "gemini-2.5-flash") prompt (contents file) ct
                           = ReplyRaise e
                           \/ exists t,
                               generate_content
                                 (resolve_api_key (settings w) (os_environ w))
                                 (py "gemini-2.5-flash") prompt
                                 (contents file) ct
                               = ReplyText t
                               /\ normalize_response recursion_headroom t
                                  = Raise e)
                          /\ is_JSONDecodeError (exc_cls e) = true
                          /\ d = py "Failed to parse Gemini response as JSON: "
                                 ++ exc_str e)))).
Proof.
  rewrite scan_response. split.
  - destruct (content_type file) as [ct|];
      [|intros H; left; split; [reflexivity|now injection H as <-]].
    destruct (in_allowed (Some ct)) eqn:Hin;
      [|intros H; left; split; [reflexivity|now injection H as <-]].
    cbn zeta. intros H. right. exists ct.
    split; [reflexivity|]. split; [exact Hin|].
    destruct (genai_Client _) as [e|].
    + left. exists e. split; [reflexivity|]. unfold on_exception in H.
      destruct (is_ValueError (exc_cls e)); [|discriminate H].
      injection H as <-. auto.
    + right. split; [reflexivity|].
      destruct (Image_verify _) as [e|].
      * left. exists e. split; [reflexivity|].
        unfold on_exception, invalid_image in H.
        cbn [is_ValueError exc_cls exc_str] in H. now injection H as <-.
      * right. split; [reflexivity|].
        destruct (generate_content _ _ _ _ _) as [t| |e];
          cbn [after_reply] in H.
        -- destruct (normalize_response recursion_headroom t) as [v|e] eqn:Hn;
             [discriminate H|].
           exists e. unfold on_exception, reraise in H.
           destruct (is_JSONDecodeError (exc_cls e)); [|discriminate H].
           cbn [is_ValueError exc_cls exc_str] in H. injection H as <-.
           split; [right; exists t; auto|auto].
        -- discriminate H.
        -- exists e. unfold on_exception, reraise in H.
           destruct (is_JSONDecodeError (exc_cls e)); [|discriminate H].
           cbn [is_ValueError exc_cls exc_str] in H.
           injection H as <-. auto.
  - intros [[Hin ->]|(ct & Hct & Hin & H)].
    + destruct (content_type file) as [ct|]; [|reflexivity].
      rewrite Hin. reflexivity.
    + rewrite Hct, Hin. cbn zeta.
      destruct H as [(e & Hk & He & ->)|(Hk & [(e & Hi & ->)|(Hi & e & Hg & He & ->)])];
        rewrite Hk.
      * unfold on_exception. now rewrite He.
      * rewrite Hi. reflexivity.
      * rewrite Hi.
        destruct Hg as [Hg|(t & Hg & Hn)]; rewrite Hg; cbn [after_reply].
        -- unfold on_exception, reraise. rewrite He. reflexivity.
        -- rewrite Hn. unfold on_exception, reraise. rewrite He. reflexivity.
Qed.

Lemma extend_nil (w : World) : extend w [] = w.
Proof. unfold extend. rewrite app_nil_r. now destruct w. Qed.

(** X8: a request calls the model once when its declared type is
    allowed, the client could be built and the image passed its check,
    and not at all otherwise; whatever the model then answers, it is
    not asked again. *)
Theorem one_model_call_at_most (file : UploadFile) (w : World) :
  upstream_calls
    (trace (snd (scan_receipt Image_verify genai_Client generate_content
                              recursion_headroom
                              file w)))
  = upstream_calls (trace w)
    + (if in_allowed (content_type file)
       then match genai_Client (resolve_api_key (settings w) (os_environ w)),
                  Image_verify (contents file) with
            | None, None => 1
            | _, _ => 0
            end
       else 0).
Proof.
  destruct (in_allowed (content_type file)) eqn:Hin.
  - destruct (content_type file) as [ct|] eqn:Hct; [|discriminate Hin].
    rewrite (scan_world file ct w Hct Hin). cbn zeta.
    destruct (genai_Client _); [|destruct (Image_verify _)];
      cbn [extend trace]; rewrite GeminiFacts.upstream_calls_app; reflexivity.
  - rewrite (ReceiptsFacts.scan_rejected _ _ _ _ file w Hin). cbn [snd]. lia.
Qed.

(** X9: what a request calls outside, and in which order, is settled
    by where it stops.  A declared type outside the list: nothing.  A
    client that cannot be built: the body is read and the constructor
    called, nothing after.  An image that fails its check: the body,
    the constructor, the check, and no model call.  Otherwise all four:
    the body is read, the client built with the resolved key, the image
    checked, and the model "gemini-2.5-flash" called with the fixed
    prompt, the uploaded bytes and the declared type, both unchanged;
    only then can the answer be a 200. *)
Theorem outside_calls_in_order (file : UploadFile) (ct : pystr) (w : World) :
  content_type file = Some ct ->
  (in_allowed (Some ct) = false ->
   snd (scan_receipt Image_verify genai_Client generate_content
                     recursion_headroom file w) = w)
  /\ (in_allowed (Some ct) = true ->
      forall e,
        genai_Client (resolve_api_key (settings w) (os_environ w)) = Some e ->
        snd (scan_receipt Image_verify genai_Client generate_content
                          recursion_headroom file w)
        = extend w [EvFileRead;
                    EvClientInit (resolve_api_key (settings w) (os_environ w))])
  /\ (in_allowed (Some ct) = true ->
      genai_Client (resolve_api_key (settings w) (os_environ w)) = None ->
      forall e,
        Image_verify (contents file) = Some e ->
        snd (scan_receipt Image_verify genai_Client generate_content
                          recursion_headroom file w)
        = extend w [EvFileRead;
                    EvClientInit (resolve_api_key (settings w) (os_environ w));
                    EvImageVerify (contents file)])
  /\ (in_allowed (Some ct) = true ->
      genai_Client (resolve_api_key (settings w) (os_environ w)) = None ->
      Image_verify (contents file) = None ->
      snd (scan_receipt Image_verify genai_Client generate_content
                        recursion_headroom file w)
      = extend w (full_trace (resolve_api_key (settings w) (os_environ w))
                             file ct))
  /\ (forall v,
         fst (scan_receipt Image_verify genai_Client generate_content
                           recursion_headroom file w)
         = Ok200 v ->
         snd (scan_receipt Image_verify genai_Client generate_content
                           recursion_headroom file w)
         = extend w (full_trace (resolve_api_key (settings w) (os_environ w))
                                file ct)).
Proof.
  intros Hct. split; [|split; [|split; [|split]]].
  - intros Hin. rewrite ReceiptsFacts.scan_rejected by (now rewrite Hct).
    reflexivity.
  - intros Hin e Hk. rewrite (scan_world file ct w Hct Hin). cbn zeta.
    now rewrite Hk.
  - intros Hin Hk e Hi. rewrite (scan_world file ct w Hct Hin). cbn zeta.
    now rewrite Hk, Hi.
  - intros Hin Hk Hi. rewrite (scan_world file ct w Hct Hin). cbn zeta.
    now rewrite Hk, Hi.
  - intros v H. rewrite scan_response, Hct in H.
    destruct (in_allowed (Some ct)) eqn:Hin; [|discriminate H].
    rewrite (scan_world file ct w Hct Hin). cbn zeta in H |- *.
    destruct (genai_Client _); [now apply on_exception_not_ok in H|].
    destruct (Image_verify _); [now apply on_exception_not_ok in H|].
    reflexivity.
Qed.

(** X10: the declared type is compared as a whole: an allowed type
    followed by anything, such as a parameter, is rejected, and so is
    one with anything in front. *)
Theorem allowed_type_is_exact (file : UploadFile) (t more : pystr) (w : World) :
  in_allowed (Some t) = true ->
  more <> [] ->
  content_type file = Some (t ++ more) \/ content_type file = Some (more ++ t) ->
  scan_receipt Image_verify genai_Client generate_content
               recursion_headroom file w
  = (invalid_file_type, w).
Proof.
  intros Ht Hm Hct. apply ReceiptsFacts.scan_rejected.
  destruct (in_allowed (content_type file)) eqn:Hin; [exfalso|reflexivity].
  apply ReceiptsFacts.in_allowed_spec in Ht, Hin.
  destruct Hct as [Hct|Hct]; rewrite Hct in Hin;
    destruct Ht as [Ht|[Ht|[Ht|Ht]]]; injection Ht as ->;
    destruct Hin as [Hin|[Hin|[Hin|Hin]]]; injection Hin as Hin;
    try (apply (f_equal (@List.length _)) in Hin;
         rewrite length_app in Hin; cbn in Hin;
         destruct more; [now apply Hm|cbn in Hin; lia]);
    clear - Hin Hm;
    repeat (destruct more as [|? more];
            [try (now apply Hm); try discriminate Hin|
             cbn in Hin; try discriminate Hin;
             injection Hin as ? Hin; subst; try discriminate]).
Qed.

End Endpoint.

(** A request that succeeds made the four calls, with the key of the
    environment and the upload as it came; one whose image fails the
    check stopped after three. *)
Lemma outside_calls_in_order_witness :
  snd (scan_receipt Scenario.image_ok Scenario.client_ok
                    (Scenario.model_says Scenario.coffee) Scenario.headroom
                    Scenario.upload Scenario.world)
  = extend Scenario.world
           [EvFileRead; EvClientInit (py "k-123");
            EvImageVerify Scenario.png;
            EvGenerateContent (py "k-123") (py "gemini-2.5-flash") prompt
                              Scenario.png (py "image/png")]
  /\ snd (scan_receipt Scenario.image_bad Scenario.client_ok
                       (Scenario.model_says Scenario.coffee) Scenario.headroom
                       Scenario.upload Scenario.world)
     = extend Scenario.world
              [EvFileRead; EvClientInit (py "k-123");
               EvImageVerify Scenario.png].
Proof.
  split.
  - destruct (outside_calls_in_order Scenario.image_ok Scenario.client_ok
                (Scenario.model_says Scenario.coffee) Scenario.headroom
                Scenario.upload (py "image/png") Scenario.world eq_refl)
      as (_ & _ & _ & _ & H).
    apply (H Scenario.coffee_object). vm_compute. reflexivity.
  - destruct (outside_calls_in_order Scenario.image_bad Scenario.client_ok
                (Scenario.model_says Scenario.coffee) Scenario.headroom
                Scenario.upload (py "image/png") Scenario.world eq_refl)
      as (_ & _ & H & _).
    apply (H eq_refl eq_refl (mkExn Exception (py "cannot identify image file"))).
    reflexivity.
Defined.

(** A PNG declared with a parameter is turned away. *)
Lemma allowed_type_is_exact_witness :
  scan_receipt Scenario.image_ok Scenario.client_ok
               (Scenario.model_says Scenario.coffee) Scenario.headroom
               {| content_type := Some (py "image/png; charset=binary");
                  contents := Scenario.png |}
               Scenario.world
  = (invalid_file_type, Scenario.world).
Proof.
  apply (allowed_type_is_exact Scenario.image_ok Scenario.client_ok
           (Scenario.model_says Scenario.coffee) Scenario.headroom _
           (py "image/png") (py "; charset=binary")).
  - reflexivity.
  - discriminate.
  - left. reflexivity.
Defined.

End EndpointFacts.

(* ================================================================== *)
(** * The settings and the key at import and at request time *)
(* ================================================================== *)

Module ImportFacts.
Import Config.

Section BaseSettings.

Variable str_lower : pystr -> pystr.
Variable validate_bool : pystr -> option bool.
Variable validate_int : pystr -> option Z.
Variable validation_message : list pystr -> pystr.

Local Abbreviation lookup := (lookup_ci str_lower).
Local Abbreviation missing := (absent str_lower).
Local Abbreviation new :=
  (Settings_new str_lower validate_bool validate_int validation_message).
Local Abbreviation get :=
  (get_settings str_lower validate_bool validate_int validation_message).

(** The key of settings that were built. *)
Lemma built_key (env de : env_vars) (s : Settings) :
  new env de = Return s ->
  gemini_api_key s
  = match field_source str_lower env de (py "gemini_api_key") with
    | Some v => v
    | None => py ""
    end.
Proof.
  unfold Settings_new. intros H.
  destruct (match field_source str_lower env de (py "debug") with
            | Some v => validate_bool v
            | None => Some (debug default_settings)
            end) as [d|];
    destruct (match field_source str_lower env de (py "port") with
              | Some v => validate_int v
              | None => Some (port default_settings)
              end) as [n|]; try discriminate H.
  injection H as <-. reflexivity.
Qed.

(** The first call of [get_settings] builds from the two sources. *)
Lemma first_call (p p1 : Process) (s : Settings) :
  cache p = None -> get p = (Return s, p1) ->
  new (environ p) (dotenv p) = Return s.
Proof.
  intros Hc H. unfold get_settings in H. rewrite Hc in H.
  destruct (Settings_new _ _ _ _ (environ p) (dotenv p)) as [s'|e];
    [|discriminate H].
  now injection H as <- _.
Qed.

(** The client is built with the configured key when there is one. *)
Lemma init_configured (genai_Client : pystr -> option exn) (w : World)
      (v : pystr) :
  gemini_api_key (settings w) = v -> v <> [] ->
  snd (Gemini.init genai_Client w) = extend w [EvClientInit v].
Proof.
  intros Hk Hv. unfold Gemini.init, bind, get_world, emit, raise, ret.
  unfold Gemini.resolve_api_key. rewrite Hk.
  destruct v as [|c v]; [now destruct Hv|]. cbn [or_else].
  now destruct (genai_Client _).
Qed.

(** X11: building the settings can fail on the texts of DEBUG and PORT
    only, the two fields that are not strings; the failure is a
    [ValueError]. *)
Theorem settings_fail_only_on_debug_or_port (env de : env_vars) :
  ((exists e,
       Settings_new str_lower validate_bool validate_int validation_message
                    env de = Raise e)
   <->
   (exists v, field_source str_lower env de (py "debug") = Some v
              /\ validate_bool v = None)
   \/ (exists v, field_source str_lower env de (py "port") = Some v
                 /\ validate_int v = None))
  /\ (forall e,
         Settings_new str_lower validate_bool validate_int validation_message
                      env de = Raise e ->
         exc_cls e = ValueError).
Proof.
  unfold Settings_new.
  destruct (field_source str_lower env de (py "debug")) as [vd|];
    [destruct (validate_bool vd) as [d|] eqn:Hd|];
    (destruct (field_source str_lower env de (py "port")) as [vp|];
     [destruct (validate_int vp) as [n|] eqn:Hn|]);
    (split;
     [split;
      [intros [e H]; try discriminate H;
       solve [left; eexists; split; [reflexivity|assumption]
             |right; eexists; split; [reflexivity|assumption]]
      |intros [(v & H1 & H2)|(v & H1 & H2)];
       try discriminate H1;
       try (injection H1 as <-; congruence);
       eexists; reflexivity]
     |intros e H; try discriminate H; now injection H as <-]).
Qed.

(** X12: the key is bound when the configuration module is imported.
    A non-empty key given then, in the environment or else in the .env
    file and under any letter case, is the key of every later client,
    whatever the environment has become; when neither source gave one,
    every request looks up GEMINI_API_KEY in the environment of that
    moment. *)
Theorem key_bound_at_import (p p1 : Process) (s : Settings) :
  cache p = None ->
  get_settings str_lower validate_bool validate_int validation_message p
  = (Return s, p1) ->
  (forall before k v after,
      environ p = before ++ (k, v) :: after ->
      str_lower k = py "gemini_api_key" ->
      absent str_lower after (py "gemini_api_key") ->
      v <> [] ->
      forall genai_Client w,
        settings w = s ->
        snd (Gemini.init genai_Client w) = extend w [EvClientInit v])
  /\ (forall before k v after,
         absent str_lower (environ p) (py "gemini_api_key") ->
         dotenv p = before ++ (k, v) :: after ->
         str_lower k = py "gemini_api_key" ->
         absent str_lower after (py "gemini_api_key") ->
         v <> [] ->
         forall genai_Client w,
           settings w = s ->
           snd (Gemini.init genai_Client w) = extend w [EvClientInit v])
  /\ (absent str_lower (environ p) (py "gemini_api_key") ->
      absent str_lower (dotenv p) (py "gemini_api_key") ->
      forall genai_Client w,
        settings w = s ->
        snd (Gemini.init genai_Client w)
        = extend w [EvClientInit
                      (environ_get (os_environ w) (py "GEMINI_API_KEY")
                                   (py ""))]).
Proof.
  intros Hc Hg. pose proof (built_key _ _ _ (first_call p p1 s Hc Hg)) as Hk.
  unfold field_source in Hk. split; [|split].
  - intros before k v after He Hl Ha Hv genai_Client w Hs.
    apply init_configured; [|exact Hv].
    rewrite Hs, Hk, He, (ConfigFacts.lookup_last str_lower before after k v _ Hl Ha).
    reflexivity.
  - intros before k v after Hm Hd Hl Ha Hv genai_Client w Hs.
    apply init_configured; [|exact Hv].
    rewrite Hs, Hk, (ConfigFacts.lookup_absent str_lower _ _ Hm), Hd.
    rewrite (ConfigFacts.lookup_last str_lower before after k v _ Hl Ha).
    reflexivity.
  - intros Hm Hd genai_Client w Hs.
    rewrite !(ConfigFacts.lookup_absent str_lower _ _) in Hk by assumption.
    unfold Gemini.init, bind, get_world, emit, raise, ret.
    unfold Gemini.resolve_api_key. rewrite Hs, Hk. cbn [or_else].
    now destruct (genai_Client _).
Qed.

End BaseSettings.

(** A key exported in mixed case before the import is used by a client
    built when the environment holds another one. *)
Lemma key_bound_at_import_witness :
  snd (Gemini.init Scenario.client_ok
         {| os_environ := [(py "GEMINI_API_KEY", py "other")];
            settings := {| gemini_api_key := py "k-1";
                           app_name := py "Divvit Backend";
                           debug := false; port := 8080 |};
            trace := [] |})
  = {| os_environ := [(py "GEMINI_API_KEY", py "other")];
       settings := {| gemini_api_key := py "k-1";
                      app_name := py "Divvit Backend";
                      debug := false; port := 8080 |};
       trace := [EvClientInit (py "k-1")] |}.
Proof.
  destruct (key_bound_at_import Scenario.ascii_lower Scenario.flag_of
              Scenario.number_of Scenario.message_of
              (Scenario.fresh_process [(py "Gemini_Api_Key", py "k-1")])
              {| environ := [(py "Gemini_Api_Key", py "k-1")]; dotenv := [];
                 cache := Some {| gemini_api_key := py "k-1";
                                  app_name := py "Divvit Backend";
                                  debug := false; port := 8080 |};
                 builds := 1 |}
              {| gemini_api_key := py "k-1"; app_name := py "Divvit Backend";
                 debug := false; port := 8080 |})
    as [H _].
  - reflexivity.
  - vm_compute. reflexivity.
  - apply (H [] (py "Gemini_Api_Key") (py "k-1") []).
    + reflexivity.
    + vm_compute. reflexivity.
    + intros k v [].
    + discriminate.
    + reflexivity.
Defined.

End ImportFacts.
